(** * ZION Lightning bridge: the pay operation of [bridge/main.go]

    A shallow embedding of [PayInvoice], of the ledger client
    [ZionRPCClient] and of the HTTP handler [handlePayInvoice], with the
    calls made to the two collaborators recorded as a trace of events. *)

From Stdlib Require Import ZArith List String Ascii Bool Lia DecimalString.
Import ListNotations.
Local Open Scope string_scope.
Local Open Scope Z_scope.

(** ** Go values *)

(** A Go [error]: [None] is [nil], [Some msg] an error whose [Error()]
    text is [msg]. *)
Definition error := option string.

(** A pointer result paired with an error, as the lnrpc calls return:
    the pointer is only read when the error is [nil]. *)
Inductive result (A : Type) : Type :=
| Ok (a : A)
| Err (msg : string).
Arguments Ok {A} a.
Arguments Err {A} msg.

(** [uint64(x)] for an [int64] (or any integer) [x]: two's complement
    wrap-around into [0, 2^64). *)
Definition uint64 (x : Z) : Z := x mod 2 ^ 64.

(** The verb [%d] of [fmt]. *)
Definition fmt_d (x : Z) : string := NilZero.string_of_int (Z.to_int x).

(** [fmt.Errorf(prefix + "%v", err)]. *)
Definition Errorf_v (prefix msg : string) : error := Some (prefix ++ msg).

Module hex.

(** [hextable]: the digit of a value below 16. *)
Definition digit (n : N) : ascii :=
  match n with
  | 0 => "0" | 1 => "1" | 2 => "2" | 3 => "3" | 4 => "4" | 5 => "5"
  | 6 => "6" | 7 => "7" | 8 => "8" | 9 => "9" | 10 => "a" | 11 => "b"
  | 12 => "c" | 13 => "d" | 14 => "e" | _ => "f"
  end%N%char.

(** [hex.EncodeToString]: two lower-case digits per byte. *)
Fixpoint EncodeToString (src : list Byte.byte) : string :=
  match src with
  | [] => EmptyString
  | b :: rest =>
      let n := Byte.to_N b in
      String (digit (N.shiftr n 4))
        (String (digit (N.land n 15)) (EncodeToString rest))
  end.

End hex.

(** ** Strings as [encoding/json] writes them *)

Module utf8.

(** The value of a byte. *)
Definition byte (c : ascii) : N := N_of_ascii c.

Definition between (lo hi : N) (c : ascii) : bool :=
  ((lo <=? byte c) && (byte c <=? hi))%N.

(** A continuation byte: [locb] to [hicb]. *)
Definition continuation (c : ascii) : bool := between 128 191 c.

(** The tables [first] and [acceptRanges] of Go's [unicode/utf8]: for
    the first byte of a sequence of several bytes, the length of the
    sequence and the range of its second byte; nothing for an ASCII
    byte and for a byte that cannot start a sequence. *)
Definition first (c : ascii) : option (nat * N * N) :=
  let b := byte c in
  if (b <? 194)%N then None
  else if (b <=? 223)%N then Some (2%nat, 128, 191)%N
  else if (b =? 224)%N then Some (3%nat, 160, 191)%N
  else if (b <=? 236)%N then Some (3%nat, 128, 191)%N
  else if (b =? 237)%N then Some (3%nat, 128, 159)%N
  else if (b <=? 239)%N then Some (3%nat, 128, 191)%N
  else if (b =? 240)%N then Some (4%nat, 144, 191)%N
  else if (b <=? 243)%N then Some (4%nat, 128, 191)%N
  else if (b =? 244)%N then Some (4%nat, 128, 143)%N
  else None.

(** [utf8.DecodeRuneInString], as far as the encoder uses it: the number
    of bytes of the rune at the head of the bytes [c :: rest] when they
    start with a well formed rune, nothing when they do not (Go then
    answers [RuneError] with the width 1). *)
Definition rune_width (c : ascii) (rest : string) : option nat :=
  if (byte c <? 128)%N then Some 1%nat
  else
    match first c with
    | None => None
    | Some (size, lo, hi) =>
        match size, rest with
        | 2%nat, String c1 _ =>
            if between lo hi c1 then Some 2%nat else None
        | 3%nat, String c1 (String c2 _) =>
            if between lo hi c1 && continuation c2 then Some 3%nat else None
        | 4%nat, String c1 (String c2 (String c3 _)) =>
            if between lo hi c1 && continuation c2 && continuation c3
            then Some 4%nat else None
        | _, _ => None
        end
    end.

(** [utf8.ValidString]; [skip] bytes at the head belong to a rune that
    was already checked. *)
Fixpoint valid_from (skip : nat) (s : string) : bool :=
  match s with
  | EmptyString => true
  | String c rest =>
      match skip with
      | S k => valid_from k rest
      | O =>
          match rune_width c rest with
          | Some width => valid_from (Nat.pred width) rest
          | None => false
          end
      end
  end.

Definition ValidString (s : string) : bool := valid_from 0 s.

(** The bytes of U+FFFD, the replacement character. *)
Definition replacement (tail : string) : string :=
  String (ascii_of_N 239) (String (ascii_of_N 191)
    (String (ascii_of_N 189) tail)).

End utf8.

Module encoding_json.

(** The string a reader of the JSON text gets for the Go string [s]:
    the encoder goes through the bytes rune by rune and writes the
    replacement character for every byte that starts no well formed
    rune; its escapes stand for the characters they replace. *)
Fixpoint string_from (skip : nat) (s : string) : string :=
  match s with
  | EmptyString => EmptyString
  | String c rest =>
      match skip with
      | S k => String c (string_from k rest)
      | O =>
          match utf8.rune_width c rest with
          | Some width => String c (string_from (Nat.pred width) rest)
          | None => utf8.replacement (string_from 0 rest)
          end
      end
  end.

Definition string (s : String.string) : String.string := string_from 0 s.

End encoding_json.

(** ** The lnrpc messages the bridge exchanges with the Lightning node *)

Module lnrpc.

Record PayReqString := { PayReq_ : string }.
Record PayReq := { NumSatoshis : Z }.
Record SendRequest := { PaymentRequest_ : string }.
Record SendResponse :=
  { PaymentError : string; PaymentHash : list Byte.byte }.

End lnrpc.

(** [context.Context]; the bridge only ever passes the background one. *)
Inductive context_Context := Background.

(** ** Data of [main.go] *)

Record Config := {
  ZionRPCURL : string;
  LNDHost : string;
  LNDTLSCert : string;
  LNDMacaroon : string;
  BridgePort : string;
  LogLevel : string
}.

Record PaymentRequest := {
  Invoice : string;
  ZionAddress : string;
  Amount : Z
}.

(** ** Observable events

    Every call that leaves the process, with the answer it got, and every
    line written with [log.Printf]. *)
Inductive event :=
| EvDecodePayReq (req : lnrpc.PayReqString) (resp : result lnrpc.PayReq)
| EvSendPaymentSync (req : lnrpc.SendRequest)
    (resp : result lnrpc.SendResponse)
| EvGetBalance (address : string) (balance : Z) (err : error)
| EvSendTransaction (from to : string) (amount : Z) (err : error)
| EvLog (line : string).

(** ** Collaborators *)

(** The part of the Go interface [lnrpc.LightningClient] that the pay
    operation uses.  The node is external: any answers are possible, and
    they may depend on the node's state [L]. *)
Class LightningClient (L : Type) := {
  DecodePayReq :
    L -> context_Context -> lnrpc.PayReqString -> L * result lnrpc.PayReq;
  SendPaymentSync :
    L -> context_Context -> lnrpc.SendRequest -> L * result lnrpc.SendResponse
}.

(** The two methods of the ledger client, by their Go signatures:
    [GetBalance(address) (uint64, error)] and
    [SendTransaction(from, to, amount) error].  [PayInvoice] is written
    against these signatures and handles both answers of each call, so
    it is embedded over any client that has the two methods; the
    [ZionRPCClient] of the source is the instance below.  A method may
    write log lines; they are returned with its answer. *)
Class LedgerClient (T : Type) := {
  GetBalance : T -> string -> T * (Z * error);
  SendTransaction : T -> string -> string -> Z -> T * list string * error
}.

(** The ledger client of the source: the URL of the node and an HTTP
    client with a timeout of 30 seconds. *)
Record ZionRPCClient := {
  baseURL : string;
  client_Timeout : Z
}.

Definition NewZionRPCClient (url : string) : ZionRPCClient :=
  {| baseURL := url; client_Timeout := 30 |}.

Module ZionRPC.

(** [func (zrc *ZionRPCClient) GetBalance(address string) (uint64, error)]:
    the mock balance, whatever the address; no request is made. *)
Definition GetBalance (zrc : ZionRPCClient) (address : string)
  : ZionRPCClient * (Z * error) :=
  (zrc, (1000000, None)).

(** [func (zrc *ZionRPCClient) SendTransaction(from, to string, amount uint64) error]:
    the transaction is logged, nothing else is done. *)
Definition SendTransaction (zrc : ZionRPCClient) (from to : string)
    (amount : Z) : ZionRPCClient * list string * error :=
  (zrc,
   ["ZION TX: " ++ from ++ " -> " ++ to ++ ": " ++ fmt_d amount ++ " ZION"],
   None).

End ZionRPC.

#[export] Instance ZionRPCClient_ledger : LedgerClient ZionRPCClient := {
  GetBalance := ZionRPC.GetBalance;
  SendTransaction := ZionRPC.SendTransaction
}.

(** ** The bridge and its effects *)

Section Bridge.

Context {L T : Type} `{LightningClient L} `{LedgerClient T}.

Record ZionLightningBridge := {
  lndClient : L;
  zionRPC : T;
  config : Config
}.

(** A computation on the bridge: it may change the state of the
    collaborators and emits the events of the calls it made, oldest
    first. *)
Definition M (A : Type) : Type :=
  ZionLightningBridge -> A * ZionLightningBridge * list event.

Definition ret {A} (a : A) : M A := fun zlb => (a, zlb, []).

Definition bind {A B} (m : M A) (k : A -> M B) : M B :=
  fun zlb =>
    let '(a, zlb1, ev1) := m zlb in
    let '(b, zlb2, ev2) := k a zlb1 in
    (b, zlb2, (ev1 ++ ev2)%list).

(** [log.Printf] *)
Definition log_Printf (line : string) : M unit :=
  fun zlb => (tt, zlb, [EvLog line]).

(** [zlb.lndClient.DecodePayReq(ctx, req)] *)
Definition lnd_DecodePayReq (ctx : context_Context) (req : lnrpc.PayReqString)
  : M (result lnrpc.PayReq) :=
  fun zlb =>
    let '(l, r) := DecodePayReq (lndClient zlb) ctx req in
    (r,
     {| lndClient := l; zionRPC := zionRPC zlb; config := config zlb |},
     [EvDecodePayReq req r]).

(** [zlb.lndClient.SendPaymentSync(ctx, req)] *)
Definition lnd_SendPaymentSync (ctx : context_Context) (req : lnrpc.SendRequest)
  : M (result lnrpc.SendResponse) :=
  fun zlb =>
    let '(l, r) := SendPaymentSync (lndClient zlb) ctx req in
    (r,
     {| lndClient := l; zionRPC := zionRPC zlb; config := config zlb |},
     [EvSendPaymentSync req r]).

(** [zlb.zionRPC.GetBalance(address)] *)
Definition zion_GetBalance (address : string) : M (Z * error) :=
  fun zlb =>
    let '(t, (balance, err)) := GetBalance (zionRPC zlb) address in
    ((balance, err),
     {| lndClient := lndClient zlb; zionRPC := t; config := config zlb |},
     [EvGetBalance address balance err]).

(** [zlb.zionRPC.SendTransaction(from, to, amount)]; the lines the
    client logs come before the answer. *)
Definition zion_SendTransaction (from to : string) (amount : Z)
  : M error :=
  fun zlb =>
    let '(t, lines, err) := SendTransaction (zionRPC zlb) from to amount in
    (err,
     {| lndClient := lndClient zlb; zionRPC := t; config := config zlb |},
     (map EvLog lines ++ [EvSendTransaction from to amount err])%list).

End Bridge.

Arguments ZionLightningBridge : clear implicits.

Declare Scope bridge_scope.
Delimit Scope bridge_scope with bridge.
Notation "x <- m ;; k" := (bind m (fun x => k))
  (at level 61, m at next level, right associativity) : bridge_scope.
Notation "m ;; k" := (bind m (fun _ => k))
  (at level 61, right associativity) : bridge_scope.

Section PayInvoice.

Context {L T : Type} `{LightningClient L} `{LedgerClient T}.
Local Open Scope bridge_scope.

(** [if err != nil { ... }] with no return in the body. *)
Definition when_err (err : error) (k : string -> M (L:=L) (T:=T) unit)
  : M unit :=
  match err with
  | Some msg => k msg
  | None => ret tt
  end.

(** [func (zlb *ZionLightningBridge) PayInvoice(ctx, invoice, zionAddress string) error] *)
Definition PayInvoice (ctx : context_Context) (invoice zionAddress : string)
  : M (L:=L) (T:=T) error :=
  let decodeReq := {| lnrpc.PayReq_ := invoice |} in
  r <- lnd_DecodePayReq ctx decodeReq ;;
  match r with
  | Err err => ret (Errorf_v "cannot decode invoice: " err)
  | Ok payReq =>
    b <- zion_GetBalance zionAddress ;;
    match b with
    | (_, Some err) => ret (Errorf_v "cannot get ZION balance: " err)
    | (balance, None) =>
      if balance <? uint64 (lnrpc.NumSatoshis payReq) then
        ret (Some ("insufficient ZION balance: " ++ fmt_d balance ++ " < "
                   ++ fmt_d (lnrpc.NumSatoshis payReq)))
      else
        let sendReq := {| lnrpc.PaymentRequest_ := invoice |} in
        p <- lnd_SendPaymentSync ctx sendReq ;;
        match p with
        | Err err => ret (Errorf_v "lightning payment failed: " err)
        | Ok payment =>
          if negb (lnrpc.PaymentError payment =? "")%string then
            ret (Some ("payment error: " ++ lnrpc.PaymentError payment))
          else
            err <- zion_SendTransaction zionAddress
                     "lightning_pool_address"
                     (uint64 (lnrpc.NumSatoshis payReq)) ;;
            when_err err (fun msg =>
              log_Printf
                ("Warning: Lightning payment succeeded but ZION deduction failed: "
                 ++ msg)) ;;
            log_Printf ("⚡ Lightning payment successful: "
                        ++ hex.EncodeToString (lnrpc.PaymentHash payment)) ;;
            ret None
        end
    end
  end.

End PayInvoice.

(** ** The HTTP handler of the pay route *)

Module http.

Definition StatusOK : Z := 200.
Definition StatusBadRequest : Z := 400.
Definition StatusInternalServerError : Z := 500.

End http.

Module gin.

(** [gin.H] restricted to string values: the fields of the JSON object. *)
Definition H := list (string * string).

(** The arguments of a call [c.JSON(code, obj)]: the status and the
    object handed to the encoder. *)
Record Response := { code : Z; obj : H }.

(** [encoding/json] writes the fields of a map sorted by name. *)
Fixpoint place_field (f : string * string) (fs : H) : H :=
  match fs with
  | [] => [f]
  | g :: rest =>
      if String.leb (fst f) (fst g) then f :: fs
      else g :: place_field f rest
  end.

(** The JSON object a caller reads in the body of the response: the
    fields in the order the encoder writes them, each value as
    [encoding/json] writes the Go string. *)
Definition written (r : Response) : H :=
  fold_right place_field []
    (map (fun f => (fst f, encoding_json.string (snd f))) (obj r)).

(** The outcome of [c.ShouldBindJSON(&req)] is decided by the request
    the context carries. *)
Record Context := { ShouldBindJSON : result PaymentRequest }.

End gin.

Section Handler.

Context {L T : Type} `{LightningClient L} `{LedgerClient T}.
Local Open Scope bridge_scope.

(** [func (zlb *ZionLightningBridge) handlePayInvoice(c *gin.Context)] *)
Definition handlePayInvoice (c : gin.Context) : M (L:=L) (T:=T) gin.Response :=
  match gin.ShouldBindJSON c with
  | Err err =>
      ret {| gin.code := http.StatusBadRequest; gin.obj := [("error", err)] |}
  | Ok req =>
      let ctx := Background in
      err <- PayInvoice ctx (Invoice req) (ZionAddress req) ;;
      match err with
      | Some msg =>
          ret {| gin.code := http.StatusInternalServerError;
                 gin.obj := [("error", msg)] |}
      | None =>
          ret {| gin.code := http.StatusOK;
                 gin.obj :=
                   [("status", "success");
                    ("message", "Lightning payment completed");
                    ("mantra", "⚡ Jai Ram Ram Ram Sita Ram Ram Ram Hanuman! ⚡")] |}
      end
  end.

End Handler.

(** ** Reading a trace *)

(** A Lightning payment request was issued. *)
Definition is_lightning_send (e : event) : bool :=
  match e with
  | EvSendPaymentSync _ _ => true
  | _ => false
  end.

(** A Lightning payment went through: the node answered without error
    and with an empty [PaymentError]. *)
Definition is_lightning_paid (e : event) : bool :=
  match e with
  | EvSendPaymentSync _ (Ok payment) =>
      (lnrpc.PaymentError payment =? "")%string
  | _ => false
  end.

(** A ledger transfer was requested. *)
Definition is_ledger_transfer (e : event) : bool :=
  match e with
  | EvSendTransaction _ _ _ _ => true
  | _ => false
  end.

(** A ledger transfer was requested and reported failure. *)
Definition is_ledger_transfer_failed (e : event) : bool :=
  match e with
  | EvSendTransaction _ _ _ (Some _) => true
  | _ => false
  end.

(** The calls that change something outside the process. *)
Definition is_external_mutation (e : event) : bool :=
  is_lightning_send e || is_ledger_transfer e.

Definition count (p : event -> bool) (evs : list event) : nat :=
  List.length (filter p evs).

(** The text [part] occurs inside [whole]. *)
Definition occurs_in (part whole : string) : Prop :=
  exists before after, whole = before ++ part ++ after.

(** ** Test doubles for the two collaborators *)

(** A Lightning node that answers by fixed tables and keeps no state. *)
Record StubNode := {
  decodes : string -> result lnrpc.PayReq;
  pays : string -> result lnrpc.SendResponse
}.

#[export] Instance StubNode_lnd : LightningClient StubNode := {
  DecodePayReq n _ req := (n, decodes n (lnrpc.PayReq_ req));
  SendPaymentSync n _ req := (n, pays n (lnrpc.PaymentRequest_ req))
}.

(** A ledger with one fixed answer per method. *)
Record StubLedger := {
  balance_answer : Z * error;
  transfer_answer : error
}.

#[export] Instance StubLedger_ledger : LedgerClient StubLedger := {
  GetBalance t _ := (t, balance_answer t);
  SendTransaction t _ _ _ := (t, [], transfer_answer t)
}.

(** A Lightning node that remembers the invoices it settled and refuses
    to pay one of them again. *)
Record DedupNode := { settled : list string }.

#[export] Instance DedupNode_lnd : LightningClient DedupNode := {
  DecodePayReq n _ _ := (n, Ok {| lnrpc.NumSatoshis := 1000 |});
  SendPaymentSync n _ req :=
    if existsb (String.eqb (lnrpc.PaymentRequest_ req)) (settled n) then
      (n, Ok {| lnrpc.PaymentError := "invoice is already paid";
                lnrpc.PaymentHash := [] |})
    else
      ({| settled := lnrpc.PaymentRequest_ req :: settled n |},
       Ok {| lnrpc.PaymentError := "";
             lnrpc.PaymentHash := [Byte.x01; Byte.xab] |})
}.

(** ** Concrete collaborators and bridges used in the examples *)

(** The defaults of [LoadConfig]. *)
Definition default_config : Config := {|
  ZionRPCURL := "http://localhost:18089";
  LNDHost := "localhost:10009";
  LNDTLSCert := "/lnd-certs/tls.cert";
  LNDMacaroon := "/lnd-certs/admin.macaroon";
  BridgePort := "8090";
  LogLevel := "info"
|}.

Definition paid_response : lnrpc.SendResponse :=
  {| lnrpc.PaymentError := ""; lnrpc.PaymentHash := [Byte.x01; Byte.xab] |}.

(** A node on which every invoice asks for [amount] and every payment
    goes through. *)
Definition paying_node (amount : Z) : StubNode := {|
  decodes := fun _ => Ok {| lnrpc.NumSatoshis := amount |};
  pays := fun _ => Ok paid_response
|}.

(** A node that decodes invoices and cannot be reached for payments. *)
Definition unreachable_node : StubNode := {|
  decodes := fun _ => Ok {| lnrpc.NumSatoshis := 1000 |};
  pays := fun _ =>
    Err "rpc error: code = Unavailable desc = connection refused"
|}.

(** The bridge as [NewZionLightningBridge] wires it: the ledger client is
    the [ZionRPCClient] of the source. *)
Definition source_bridge (node : StubNode)
  : ZionLightningBridge StubNode ZionRPCClient :=
  {| lndClient := node;
     zionRPC := NewZionRPCClient (ZionRPCURL default_config);
     config := default_config |}.

(** A bridge over a stub ledger. *)
Definition stub_bridge (node : StubNode) (ledger : StubLedger)
  : ZionLightningBridge StubNode StubLedger :=
  {| lndClient := node; zionRPC := ledger; config := default_config |}.

(** Integers as Go types them. *)
Definition is_uint64 (x : Z) : Prop := 0 <= x < 2 ^ 64.
Definition is_int64 (x : Z) : Prop := - 2 ^ 63 <= x < 2 ^ 63.

(** ** The shape of a call of [PayInvoice] *)

Definition pool : string := "lightning_pool_address".

Definition decodeReq (invoice : string) : lnrpc.PayReqString :=
  {| lnrpc.PayReq_ := invoice |}.

Definition sendReq (invoice : string) : lnrpc.SendRequest :=
  {| lnrpc.PaymentRequest_ := invoice |}.

Definition warning_line (msg : string) : string :=
  "Warning: Lightning payment succeeded but ZION deduction failed: " ++ msg.

Definition success_line (payment : lnrpc.SendResponse) : string :=
  "⚡ Lightning payment successful: "
  ++ hex.EncodeToString (lnrpc.PaymentHash payment).

Definition warning_events (err : error) : list event :=
  match err with
  | Some msg => [EvLog (warning_line msg)]
  | None => []
  end.

(** What follows a successful Lightning payment: the ledger transfer with
    the lines it logged, the warning when it failed, the closing line. *)
Definition ledger_leg_events (zionAddress : string) (amount : Z)
    (lines : list string) (err : error) (payment : lnrpc.SendResponse)
  : list event :=
  (map EvLog lines
   ++ [EvSendTransaction zionAddress pool amount err]
   ++ warning_events err
   ++ [EvLog (success_line payment)])%list.

(** A call whose answer makes [PayInvoice] give up: the invoice does not
    decode, the balance cannot be fetched, the payment request returns an
    error, or the payment comes back with a non-empty [PaymentError]. *)
Definition is_leg_failure (e : event) : bool :=
  match e with
  | EvDecodePayReq _ (Err _) => true
  | EvGetBalance _ _ (Some _) => true
  | EvSendPaymentSync _ (Err _) => true
  | EvSendPaymentSync _ (Ok payment) =>
      negb (lnrpc.PaymentError payment =? "")%string
  | _ => false
  end.

(** The amount of the first invoice decoded in the trace, as the bridge
    reads it. *)
Fixpoint decoded_amount (evs : list event) : option Z :=
  match evs with
  | [] => None
  | EvDecodePayReq _ (Ok payReq) :: _ =>
      Some (uint64 (lnrpc.NumSatoshis payReq))
  | _ :: rest => decoded_amount rest
  end.

(** The first balance the ledger reported without error. *)
Fixpoint reported_balance (evs : list event) : option Z :=
  match evs with
  | [] => None
  | EvGetBalance _ balance None :: _ => Some balance
  | _ :: rest => reported_balance rest
  end.

(** The reported balance does not cover the decoded amount. *)
Definition balance_insufficient (evs : list event) : bool :=
  match decoded_amount evs, reported_balance evs with
  | Some amount, Some balance => balance <? amount
  | _, _ => false
  end.

(** The five ways in which the Lightning leg fails. *)
Definition lightning_leg_failed (evs : list event) : bool :=
  existsb is_leg_failure evs || balance_insufficient evs.

(** The error is the insufficient balance rejection. *)
Definition is_insufficient_rejection (res : error) : bool :=
  match res with
  | Some msg => prefix "insufficient ZION balance: " msg
  | None => false
  end.

(** The line is the warning of a failed deduction. *)
Definition is_deduction_warning (e : event) : bool :=
  match e with
  | EvLog line =>
      prefix "Warning: Lightning payment succeeded but ZION deduction failed: "
        line
  | _ => false
  end.

(** A request context whose body binds to [req]. *)
Definition bound (req : PaymentRequest) : gin.Context :=
  {| gin.ShouldBindJSON := Ok req |}.

(** The response [handlePayInvoice] writes for what [PayInvoice] returned. *)
Definition response_for (err : error) : gin.Response :=
  match err with
  | Some msg =>
      {| gin.code := http.StatusInternalServerError;
         gin.obj := [("error", msg)] |}
  | None =>
      {| gin.code := http.StatusOK;
         gin.obj :=
           [("status", "success");
            ("message", "Lightning payment completed");
            ("mantra", "⚡ Jai Ram Ram Ram Sita Ram Ram Ram Hanuman! ⚡")] |}
  end.

(** A collaborator answered with the error [e]. *)
Definition transport_error (e : string) (evs : list event) : Prop :=
  (exists req, In (EvDecodePayReq req (Err e)) evs)
  \/ (exists address balance, In (EvGetBalance address balance (Some e)) evs)
  \/ (exists req, In (EvSendPaymentSync req (Err e)) evs).

(** The response shows the text to the caller. *)
Definition exposes (text : string) (resp : gin.Response) : Prop :=
  exists key value, In (key, value) (gin.obj resp) /\ occurs_in text value.

Section Calls.

Context {L T : Type} `{LightningClient L} `{LedgerClient T}.

Definition result_of {A} (r : A * ZionLightningBridge L T * list event) : A :=
  fst (fst r).

Definition bridge_of {A} (r : A * ZionLightningBridge L T * list event)
  : ZionLightningBridge L T :=
  snd (fst r).

Definition events_of {A} (r : A * ZionLightningBridge L T * list event)
  : list event :=
  snd r.

Definition bridge_with (zlb : ZionLightningBridge L T) (l : L) (t : T)
  : ZionLightningBridge L T :=
  {| lndClient := l; zionRPC := t; config := config zlb |}.


(** Two calls in a row for the same invoice and address. *)
Definition PayInvoice_twice (ctx : context_Context)
    (invoice zionAddress : string) : M (L:=L) (T:=T) error :=
  bind (PayInvoice ctx invoice zionAddress)
    (fun _ => PayInvoice ctx invoice zionAddress).

End Calls.

(** A node that cannot decode anything. *)
Definition deaf_node : StubNode := {|
  decodes := fun _ => Err "rpc error: code = Unknown desc = invalid index of 1";
  pays := fun _ => Ok paid_response
|}.

(** ** The runs of [PayInvoice] *)

Section Run.

Context {L T : Type} `{LightningClient L} `{LedgerClient T}.

Variable ctx : context_Context.
Variables invoice zionAddress : string.
Variable zlb : ZionLightningBridge L T.

(** The six ways through the function, by the answers of the
    collaborators: the error returned, the bridge afterwards and the
    events emitted. *)
Inductive PayInvoice_run
  : error -> ZionLightningBridge L T -> list event -> Prop :=
| run_decode_failed l1 e :
    DecodePayReq (lndClient zlb) ctx (decodeReq invoice) = (l1, Err e) ->
    PayInvoice_run
      (Some ("cannot decode invoice: " ++ e))
      (bridge_with zlb l1 (zionRPC zlb))
      [EvDecodePayReq (decodeReq invoice) (Err e)]
| run_balance_failed l1 payReq t1 balance e :
    DecodePayReq (lndClient zlb) ctx (decodeReq invoice) = (l1, Ok payReq) ->
    GetBalance (zionRPC zlb) zionAddress = (t1, (balance, Some e)) ->
    PayInvoice_run
      (Some ("cannot get ZION balance: " ++ e))
      (bridge_with zlb l1 t1)
      [EvDecodePayReq (decodeReq invoice) (Ok payReq);
       EvGetBalance zionAddress balance (Some e)]
| run_insufficient l1 payReq t1 balance :
    DecodePayReq (lndClient zlb) ctx (decodeReq invoice) = (l1, Ok payReq) ->
    GetBalance (zionRPC zlb) zionAddress = (t1, (balance, None)) ->
    balance < uint64 (lnrpc.NumSatoshis payReq) ->
    PayInvoice_run
      (Some ("insufficient ZION balance: " ++ fmt_d balance ++ " < "
             ++ fmt_d (lnrpc.NumSatoshis payReq)))
      (bridge_with zlb l1 t1)
      [EvDecodePayReq (decodeReq invoice) (Ok payReq);
       EvGetBalance zionAddress balance None]
| run_send_failed l1 payReq t1 balance l2 e :
    DecodePayReq (lndClient zlb) ctx (decodeReq invoice) = (l1, Ok payReq) ->
    GetBalance (zionRPC zlb) zionAddress = (t1, (balance, None)) ->
    uint64 (lnrpc.NumSatoshis payReq) <= balance ->
    SendPaymentSync l1 ctx (sendReq invoice) = (l2, Err e) ->
    PayInvoice_run
      (Some ("lightning payment failed: " ++ e))
      (bridge_with zlb l2 t1)
      [EvDecodePayReq (decodeReq invoice) (Ok payReq);
       EvGetBalance zionAddress balance None;
       EvSendPaymentSync (sendReq invoice) (Err e)]
| run_payment_error l1 payReq t1 balance l2 payment :
    DecodePayReq (lndClient zlb) ctx (decodeReq invoice) = (l1, Ok payReq) ->
    GetBalance (zionRPC zlb) zionAddress = (t1, (balance, None)) ->
    uint64 (lnrpc.NumSatoshis payReq) <= balance ->
    SendPaymentSync l1 ctx (sendReq invoice) = (l2, Ok payment) ->
    lnrpc.PaymentError payment <> "" ->
    PayInvoice_run
      (Some ("payment error: " ++ lnrpc.PaymentError payment))
      (bridge_with zlb l2 t1)
      [EvDecodePayReq (decodeReq invoice) (Ok payReq);
       EvGetBalance zionAddress balance None;
       EvSendPaymentSync (sendReq invoice) (Ok payment)]
| run_paid l1 payReq t1 balance l2 payment t2 lines err :
    DecodePayReq (lndClient zlb) ctx (decodeReq invoice) = (l1, Ok payReq) ->
    GetBalance (zionRPC zlb) zionAddress = (t1, (balance, None)) ->
    uint64 (lnrpc.NumSatoshis payReq) <= balance ->
    SendPaymentSync l1 ctx (sendReq invoice) = (l2, Ok payment) ->
    lnrpc.PaymentError payment = "" ->
    SendTransaction t1 zionAddress pool (uint64 (lnrpc.NumSatoshis payReq))
      = (t2, lines, err) ->
    PayInvoice_run None
      (bridge_with zlb l2 t2)
      ([EvDecodePayReq (decodeReq invoice) (Ok payReq);
        EvGetBalance zionAddress balance None;
        EvSendPaymentSync (sendReq invoice) (Ok payment)]
       ++ ledger_leg_events zionAddress
            (uint64 (lnrpc.NumSatoshis payReq)) lines err payment)%list.

End Run.

(** * The rest of [main.go] *)

(** ** Configuration *)

(** [os.Getenv]: the value of a variable, the empty string when the
    variable is not set. *)
Definition Environ := string -> string.

(** [func getEnv(key, defaultValue string) string] *)
Definition getEnv (env : Environ) (key defaultValue : string) : string :=
  let value := env key in
  if negb (value =? "")%string then value else defaultValue.

(** [func LoadConfig()], returning the [Config] *)
Definition LoadConfig (env : Environ) : Config := {|
  ZionRPCURL := getEnv env "ZION_RPC_URL" "http://localhost:18089";
  LNDHost := getEnv env "LND_HOST" "localhost:10009";
  LNDTLSCert := getEnv env "LND_TLS_CERT_PATH" "/lnd-certs/tls.cert";
  LNDMacaroon := getEnv env "LND_ADMIN_MACAROON_PATH" "/lnd-certs/admin.macaroon";
  BridgePort := getEnv env "BRIDGE_PORT" "8090";
  LogLevel := getEnv env "LOG_LEVEL" "info"
|}.

(** ** More Go values *)

(** [int64(x)] for a [uint64] (or any integer) [x]: two's complement
    wrap-around into [-2^63, 2^63). *)
Definition int64 (x : Z) : Z := (x + 2 ^ 63) mod 2 ^ 64 - 2 ^ 63.

Module slice.

(** A Go slice, as far as its elements and its being [nil] go: [None]
    is the nil slice, [Some []] an empty slice that is not nil. *)
Definition t (A : Type) : Type := option (list A).

(** [append(s, x)] *)
Definition append {A} (s : t A) (x : A) : t A :=
  match s with
  | None => Some [x]
  | Some l => Some (l ++ [x])%list
  end.

(** The elements a [range] goes through. *)
Definition elems {A} (s : t A) : list A :=
  match s with
  | None => []
  | Some l => l
  end.

End slice.

Module json.

(** A JSON value, as [encoding/json] writes the values of this program. *)
#[warnings="-register-all"]
Inductive value :=
| Null
| Bool (b : bool)
| Number (n : Z)
| Str (s : string)
| Array (items : list value)
| Object (fields : list (string * value)).

(** The value written for a Go string: the string a reader of the JSON
    text gets. *)
Definition of_string (s : string) : value := Str (encoding_json.string s).

End json.

(** ** The lnrpc messages of the node and invoice calls *)

Module lnrpc_msg.

Record GetInfoResponse := {
  IdentityPubkey : string;
  Alias : string;
  NumActiveChannels : Z;
  SyncedToChain : bool;
  Testnet : bool
}.

Record Channel := {
  ChanId : Z;
  RemotePubkey : string;
  Capacity : Z;
  LocalBalance : Z;
  RemoteBalance : Z;
  Active : bool
}.

Record ListChannelsResponse := { Channels : list Channel }.

Record Invoice := { Value : Z; Memo : string }.

Record AddInvoiceResponse := {
  RHash : list Byte.byte;
  PaymentRequest : string
}.

End lnrpc_msg.

(** The rest of the Go interface [lnrpc.LightningClient] that the
    bridge uses. *)
Class LightningNodeClient (L : Type) := {
  GetInfo : L -> context_Context -> L * result lnrpc_msg.GetInfoResponse;
  ListChannels :
    L -> context_Context -> L * result lnrpc_msg.ListChannelsResponse;
  AddInvoice :
    L -> context_Context -> lnrpc_msg.Invoice
    -> L * result lnrpc_msg.AddInvoiceResponse
}.

(** ** More data of [main.go] *)

(** [type Channel struct] *)
Record Channel := {
  ChannelID : string;
  RemoteNodeID : string;
  Capacity : Z;
  LocalBalance : Z;
  RemoteBalance : Z;
  Active : bool
}.

Module nodeinfo.

(** [type NodeInfo struct] *)
Record NodeInfo := {
  PubKey : string;
  Alias : string;
  NumChannels : Z;
  Capacity : Z;
  Synced : bool;
  Testnet : bool;
  Channels : slice.t Channel
}.

End nodeinfo.

Module payment.

(** [type LightningPayment struct] *)
Record LightningPayment := {
  Invoice : string;
  Amount : Z;
  ZionTxHash : string;
  Status : string;
  Timestamp : Z;
  PaymentHash : string
}.

End payment.

Module invoicereq.

(** [type InvoiceRequest struct] *)
Record InvoiceRequest := { Amount : Z; Memo : string }.

End invoicereq.

(** The calls of the node and invoice operations, with their answers,
    and the lines they log. *)
Inductive call :=
| CallGetInfo (resp : result lnrpc_msg.GetInfoResponse)
| CallListChannels (resp : result lnrpc_msg.ListChannelsResponse)
| CallAddInvoice (req : lnrpc_msg.Invoice)
    (resp : result lnrpc_msg.AddInvoiceResponse)
| CallLog (line : string).

Definition is_ListChannels (c : call) : bool :=
  match c with
  | CallListChannels _ => true
  | _ => false
  end.

Definition is_AddInvoice (c : call) : bool :=
  match c with
  | CallAddInvoice _ _ => true
  | _ => false
  end.

(** ** Node information, channels and invoices *)

Section Node.

Context {L T : Type} `{LightningNodeClient L}.

(** A computation of the node and invoice operations on the bridge. *)
Definition Q (A : Type) : Type :=
  ZionLightningBridge L T -> A * ZionLightningBridge L T * list call.

Definition qret {A} (a : A) : Q A := fun zlb => (a, zlb, []).

Definition qbind {A B} (m : Q A) (k : A -> Q B) : Q B :=
  fun zlb =>
    let '(a, zlb1, c1) := m zlb in
    let '(b, zlb2, c2) := k a zlb1 in
    (b, zlb2, (c1 ++ c2)%list).

Definition qlog (line : string) : Q unit :=
  fun zlb => (tt, zlb, [CallLog line]).

(** [zlb.lndClient.GetInfo(ctx, &lnrpc.GetInfoRequest{})] *)
Definition lnd_GetInfo (ctx : context_Context)
  : Q (result lnrpc_msg.GetInfoResponse) :=
  fun zlb =>
    let '(l, r) := GetInfo (lndClient zlb) ctx in
    (r,
     {| lndClient := l; zionRPC := zionRPC zlb; config := config zlb |},
     [CallGetInfo r]).

(** [zlb.lndClient.ListChannels(ctx, channelsReq)] *)
Definition lnd_ListChannels (ctx : context_Context)
  : Q (result lnrpc_msg.ListChannelsResponse) :=
  fun zlb =>
    let '(l, r) := ListChannels (lndClient zlb) ctx in
    (r,
     {| lndClient := l; zionRPC := zionRPC zlb; config := config zlb |},
     [CallListChannels r]).

(** [zlb.lndClient.AddInvoice(ctx, invoiceReq)] *)
Definition lnd_AddInvoice (ctx : context_Context) (req : lnrpc_msg.Invoice)
  : Q (result lnrpc_msg.AddInvoiceResponse) :=
  fun zlb =>
    let '(l, r) := AddInvoice (lndClient zlb) ctx req in
    (r,
     {| lndClient := l; zionRPC := zionRPC zlb; config := config zlb |},
     [CallAddInvoice req r]).

End Node.

Declare Scope node_scope.
Delimit Scope node_scope with node.
Notation "x <- m ;; k" := (qbind m (fun x => k))
  (at level 61, m at next level, right associativity) : node_scope.
Notation "m ;; k" := (qbind m (fun _ => k))
  (at level 61, right associativity) : node_scope.

(** The body of the loop of [GetChannels]: the [Channel] built from one
    channel of the node. *)
Definition channel_of (ch : lnrpc_msg.Channel) : Channel := {|
  ChannelID := fmt_d (lnrpc_msg.ChanId ch);
  RemoteNodeID := lnrpc_msg.RemotePubkey ch;
  Capacity := uint64 (lnrpc_msg.Capacity ch);
  LocalBalance := uint64 (lnrpc_msg.LocalBalance ch);
  RemoteBalance := uint64 (lnrpc_msg.RemoteBalance ch);
  Active := lnrpc_msg.Active ch
|}.

Section NodeOperations.

Context {L T : Type} `{LightningNodeClient L}.
Local Open Scope node_scope.

(** [func (zlb *ZionLightningBridge) GetChannels(ctx) ([]Channel, error)] *)
Definition GetChannels (ctx : context_Context)
  : Q (L:=L) (T:=T) (result (slice.t Channel)) :=
  r <- lnd_ListChannels ctx ;;
  match r with
  | Err err => qret (Err err)
  | Ok channelsResp =>
    let channels :=
      fold_left (fun channels ch => slice.append channels (channel_of ch))
        (lnrpc_msg.Channels channelsResp) None in
    qret (Ok channels)
  end.

(** [func (zlb *ZionLightningBridge) GetNodeInfo(ctx)], returning a [NodeInfo] or an error *)
Definition GetNodeInfo (ctx : context_Context)
  : Q (L:=L) (T:=T) (result nodeinfo.NodeInfo) :=
  r <- lnd_GetInfo ctx ;;
  match r with
  | Err err => qret (Err err)
  | Ok info =>
    c <- GetChannels ctx ;;
    channels <-
      match c with
      | Err err =>
          qlog ("Warning: Could not get channels: " ++ err) ;;
          qret (Some [])
      | Ok channels => qret channels
      end ;;
    let totalCapacity :=
      fold_left (fun total ch => uint64 (total + Capacity ch))
        (slice.elems channels) 0 in
    qret (Ok {| nodeinfo.PubKey := lnrpc_msg.IdentityPubkey info;
                nodeinfo.Alias := lnrpc_msg.Alias info;
                nodeinfo.NumChannels := lnrpc_msg.NumActiveChannels info;
                nodeinfo.Capacity := totalCapacity;
                nodeinfo.Synced := lnrpc_msg.SyncedToChain info;
                nodeinfo.Testnet := lnrpc_msg.Testnet info;
                nodeinfo.Channels := channels |})
  end.

(** [func (zlb *ZionLightningBridge) CreateInvoice(ctx, amount, memo)],
    returning a [LightningPayment] or an error;
    [now] is what [time.Now().Unix()] reads. *)
Definition CreateInvoice (now : Z) (ctx : context_Context) (amount : Z)
    (memo : string) : Q (L:=L) (T:=T) (result payment.LightningPayment) :=
  let invoiceReq :=
    {| lnrpc_msg.Value := int64 amount; lnrpc_msg.Memo := memo |} in
  r <- lnd_AddInvoice ctx invoiceReq ;;
  match r with
  | Err err => qret (Err err)
  | Ok invoice =>
    qret (Ok {| payment.Invoice := lnrpc_msg.PaymentRequest invoice;
                payment.Amount := amount;
                payment.ZionTxHash := "";
                payment.Status := "pending";
                payment.Timestamp := now;
                payment.PaymentHash :=
                  hex.EncodeToString (lnrpc_msg.RHash invoice) |})
  end.

End NodeOperations.

(** ** JSON of the answers *)

(** [Channel], by its field tags. *)
Definition marshal_Channel (c : Channel) : json.value :=
  json.Object
    [("channel_id", json.of_string (ChannelID c));
     ("remote_node_id", json.of_string (RemoteNodeID c));
     ("capacity", json.Number (Capacity c));
     ("local_balance", json.Number (LocalBalance c));
     ("remote_balance", json.Number (RemoteBalance c));
     ("active", json.Bool (Active c))].

(** A slice of channels: the nil slice is written [null], any other
    slice as an array. *)
Definition marshal_Channels (s : slice.t Channel) : json.value :=
  match s with
  | None => json.Null
  | Some l => json.Array (map marshal_Channel l)
  end.

(** [NodeInfo], by its field tags. *)
Definition marshal_NodeInfo (n : nodeinfo.NodeInfo) : json.value :=
  json.Object
    [("pub_key", json.of_string (nodeinfo.PubKey n));
     ("alias", json.of_string (nodeinfo.Alias n));
     ("num_channels", json.Number (nodeinfo.NumChannels n));
     ("capacity", json.Number (nodeinfo.Capacity n));
     ("synced", json.Bool (nodeinfo.Synced n));
     ("testnet", json.Bool (nodeinfo.Testnet n));
     ("channels", marshal_Channels (nodeinfo.Channels n))].

(** [LightningPayment], by its field tags. *)
Definition marshal_LightningPayment (p : payment.LightningPayment)
  : json.value :=
  json.Object
    [("invoice", json.of_string (payment.Invoice p));
     ("amount", json.Number (payment.Amount p));
     ("zion_tx_hash", json.of_string (payment.ZionTxHash p));
     ("status", json.of_string (payment.Status p));
     ("timestamp", json.Number (payment.Timestamp p));
     ("payment_hash", json.of_string (payment.PaymentHash p))].

(** [gin.H{"error": err.Error()}], as [c.JSON] writes it. *)
Definition error_body (msg : string) : json.value :=
  json.Object [("error", json.of_string msg)].

Module reply.

(** What [c.JSON(code, obj)] writes, with the object as JSON. *)
Record t := { code : Z; body : json.value }.

End reply.

(** The request context of the invoice route: the outcome of
    [c.ShouldBindJSON(&req)] for an [InvoiceRequest]. *)
Record InvoiceContext := {
  ShouldBindInvoice : result invoicereq.InvoiceRequest
}.

(** ** The other handlers *)

(** [func (zlb *ZionLightningBridge) handleHealth(c *gin.Context)] *)
Definition handleHealth (now : Z) : reply.t :=
  {| reply.code := http.StatusOK;
     reply.body :=
       json.Object
         [("status", json.of_string "healthy");
          ("service", json.of_string "zion-lightning-bridge");
          ("timestamp", json.Number now);
          ("mantra", json.of_string "Jai Ram Ram Ram Sita Ram Ram Ram Hanuman!")]
  |}.

Section NodeHandlers.

Context {L T : Type} `{LightningNodeClient L}.
Local Open Scope node_scope.

(** [func (zlb *ZionLightningBridge) handleGetNodeInfo(c *gin.Context)] *)
Definition handleGetNodeInfo : Q (L:=L) (T:=T) reply.t :=
  let ctx := Background in
  r <- GetNodeInfo ctx ;;
  match r with
  | Err err =>
      qret {| reply.code := http.StatusInternalServerError;
              reply.body := error_body err |}
  | Ok nodeInfo =>
      qret {| reply.code := http.StatusOK;
              reply.body := marshal_NodeInfo nodeInfo |}
  end.

(** [func (zlb *ZionLightningBridge) handleGetChannels(c *gin.Context)] *)
Definition handleGetChannels : Q (L:=L) (T:=T) reply.t :=
  let ctx := Background in
  r <- GetChannels ctx ;;
  match r with
  | Err err =>
      qret {| reply.code := http.StatusInternalServerError;
              reply.body := error_body err |}
  | Ok channels =>
      qret {| reply.code := http.StatusOK;
              reply.body :=
                json.Object [("channels", marshal_Channels channels)] |}
  end.

(** [func (zlb *ZionLightningBridge) handleCreateInvoice(c *gin.Context)] *)
Definition handleCreateInvoice (now : Z) (c : InvoiceContext)
  : Q (L:=L) (T:=T) reply.t :=
  match ShouldBindInvoice c with
  | Err err =>
      qret {| reply.code := http.StatusBadRequest;
              reply.body := error_body err |}
  | Ok req =>
      let ctx := Background in
      r <- CreateInvoice now ctx (invoicereq.Amount req)
             (invoicereq.Memo req) ;;
      match r with
      | Err err =>
          qret {| reply.code := http.StatusInternalServerError;
                  reply.body := error_body err |}
      | Ok payment =>
          qret {| reply.code := http.StatusOK;
                  reply.body := marshal_LightningPayment payment |}
      end
  end.

End NodeHandlers.

(** ** The CORS middleware of [main] *)

Module cors.

(** A response with the headers the middleware set on it; an aborted
    request has no body. *)
Record Response := {
  headers : list (string * string);
  status : Z;
  body : option gin.H
}.

End cors.

Section Middleware.

Context {L T : Type}.

(** The function passed to [r.Use] in [main]: [next] is what [c.Next()]
    runs, the handler of the route. *)
Definition cors_middleware (method : string)
    (next : M (L:=L) (T:=T) gin.Response) : M (L:=L) (T:=T) cors.Response :=
  let headers :=
    [("Access-Control-Allow-Origin", "*");
     ("Access-Control-Allow-Methods", "GET, POST, PUT, DELETE, OPTIONS");
     ("Access-Control-Allow-Headers", "Content-Type, Authorization")] in
  if (method =? "OPTIONS")%string then
    ret {| cors.headers := headers; cors.status := 204; cors.body := None |}
  else
    bind next (fun resp =>
      ret {| cors.headers := headers;
             cors.status := gin.code resp;
             cors.body := Some (gin.obj resp) |}).

End Middleware.

(** ** Setting up the bridge *)

Module credentials.

(** The transport credentials the bridge builds. *)
Inductive TransportCredentials :=
| ClientTLSFromFile (certFile serverNameOverride : string)
| NewTLS (InsecureSkipVerify : bool).

End credentials.

Section Setup.

Variables L Mac : Type.

(** [type MacaroonCredential struct { *macaroon.Macaroon }] *)
Record MacaroonCredential := { Macaroon : Mac }.

(** [func NewMacaroonCredential(mac *macaroon.Macaroon) *MacaroonCredential] *)
Definition NewMacaroonCredential (mac : Mac) : MacaroonCredential :=
  {| Macaroon := mac |}.

(** [func (mc *MacaroonCredential) RequireTransportSecurity() bool] *)
Definition RequireTransportSecurity (mc : MacaroonCredential) : bool := true.

Inductive DialOption :=
| WithTransportCredentials (creds : credentials.TransportCredentials)
| WithPerRPCCredentials (creds : MacaroonCredential).

(** What the process finds outside itself when it starts: the files, the
    macaroon codec and the dialer.  [NewClientTLSFromFile] answers only
    whether the certificate loads. *)
Record Host := {
  NewClientTLSFromFile : string -> string -> error;
  os_Stat : string -> error;
  ioutil_ReadFile : string -> result (list Byte.byte);
  UnmarshalBinary : list Byte.byte -> result Mac;
  MarshalBinary : Mac -> result (list Byte.byte);
  grpc_Dial : string -> list DialOption -> result L
}.

(** [func (mc *MacaroonCredential) GetRequestMetadata(ctx, uri ...string)] *)
Definition GetRequestMetadata (host : Host) (mc : MacaroonCredential)
  : result (list (string * string)) :=
  match MarshalBinary host (Macaroon mc) with
  | Err err => Err err
  | Ok macBytes => Ok [("macaroon", hex.EncodeToString macBytes)]
  end.

(** The calls made while setting up, with their answers, and the lines
    logged. *)
Inductive setup_event :=
| SetupTLSFromFile (certFile : string) (err : error)
| SetupStat (name : string) (err : error)
| SetupReadFile (name : string) (resp : result (list Byte.byte))
| SetupUnmarshal (data : list Byte.byte) (err : error)
| SetupDial (target : string) (opts : list DialOption) (err : error)
| SetupLog (line : string).

Definition W (A : Type) : Type := A * list setup_event.

Definition wret {A} (a : A) : W A := (a, []).

Definition wbind {A B} (m : W A) (k : A -> W B) : W B :=
  let '(a, e1) := m in
  let '(b, e2) := k a in
  (b, (e1 ++ e2)%list).

Definition wlog (line : string) : W unit := (tt, [SetupLog line]).

Definition error_of {A} (r : result A) : error :=
  match r with
  | Ok _ => None
  | Err msg => Some msg
  end.

Variable host : Host.

Definition load_tls (certFile : string) : W error :=
  let err := NewClientTLSFromFile host certFile "" in
  (err, [SetupTLSFromFile certFile err]).

Definition stat (name : string) : W error :=
  let err := os_Stat host name in (err, [SetupStat name err]).

Definition read_file (name : string) : W (result (list Byte.byte)) :=
  let r := ioutil_ReadFile host name in (r, [SetupReadFile name r]).

Definition unmarshal (data : list Byte.byte) : W (result Mac) :=
  let r := UnmarshalBinary host data in (r, [SetupUnmarshal data (error_of r)]).

Definition dial (target : string) (opts : list DialOption) : W (result L) :=
  let r := grpc_Dial host target opts in
  (r, [SetupDial target opts (error_of r)]).

(** The part of [NewZionLightningBridge] that loads the macaroon: the
    credential when the file is there and loads, none when [os.Stat]
    fails, an error when the file is there and does not load. *)
Definition load_macaroon (config : Config)
  : W (result (option MacaroonCredential)) :=
  wbind (stat (LNDMacaroon config)) (fun statErr =>
  match statErr with
  | None =>
    wbind (read_file (LNDMacaroon config)) (fun rd =>
    match rd with
    | Err err => wret (Err ("cannot read macaroon file: " ++ err))
    | Ok macaroonBytes =>
      wbind (unmarshal macaroonBytes) (fun um =>
      match um with
      | Err err => wret (Err ("cannot unmarshal macaroon: " ++ err))
      | Ok mac => wret (Ok (Some (NewMacaroonCredential mac)))
      end)
    end)
  | Some err =>
    wbind (wlog ("Warning: Macaroon file not found, proceeding without auth: "
                 ++ err))
      (fun _ => wret (Ok None))
  end).

(** [func NewZionLightningBridge(config *Config)], returning the bridge
    or an error *)
Definition NewZionLightningBridge (config : Config)
  : W (result (ZionLightningBridge L ZionRPCClient)) :=
  wbind (load_tls (LNDTLSCert config)) (fun tlsErr =>
  wbind
    match tlsErr with
    | Some err =>
      wbind (wlog ("Warning: Could not load TLS cert, trying insecure connection: "
                   ++ err))
        (fun _ => wret (credentials.NewTLS true))
    | None => wret (credentials.ClientTLSFromFile (LNDTLSCert config) "")
    end (fun tlsCreds =>
  wbind (load_macaroon config) (fun m =>
  match m with
  | Err err => wret (Err err)
  | Ok creds =>
    let opts := [WithTransportCredentials tlsCreds] in
    let opts :=
      match creds with
      | Some c => (opts ++ [WithPerRPCCredentials c])%list
      | None => opts
      end in
    wbind (dial (LNDHost config) opts) (fun d =>
    match d with
    | Err err => wret (Err ("cannot dial to lnd: " ++ err))
    | Ok conn =>
      wret (Ok {| lndClient := conn;
                  zionRPC := NewZionRPCClient (ZionRPCURL config);
                  config := config |})
    end)
  end))).

End Setup.

Arguments NewMacaroonCredential {Mac} mac.
Arguments WithTransportCredentials {Mac} creds.
Arguments WithPerRPCCredentials {Mac} creds.
Arguments NewClientTLSFromFile {L Mac} h _ _.
Arguments os_Stat {L Mac} h _.
Arguments ioutil_ReadFile {L Mac} h _.
Arguments UnmarshalBinary {L Mac} h _.
Arguments MarshalBinary {L Mac} h _.
Arguments grpc_Dial {L Mac} h _ _.
Arguments GetRequestMetadata {L Mac} host mc.
Arguments NewZionLightningBridge {L Mac} host config.
Arguments load_macaroon {L Mac} host config.

(** ** Reading the outcome of a node operation *)

Section NodeOutcome.

Context {L T : Type}.

Definition qresult {A} (r : A * ZionLightningBridge L T * list call) : A :=
  fst (fst r).

Definition qbridge {A} (r : A * ZionLightningBridge L T * list call)
  : ZionLightningBridge L T :=
  snd (fst r).

Definition qcalls {A} (r : A * ZionLightningBridge L T * list call)
  : list call :=
  snd r.

(** The bridge after a call that left the node in state [l]. *)
Definition node_bridge (zlb : ZionLightningBridge L T) (l : L)
  : ZionLightningBridge L T :=
  {| lndClient := l; zionRPC := zionRPC zlb; config := config zlb |}.

End NodeOutcome.

(** The sum of the capacities of the channels of the node, each read as
    a [uint64]. *)
Definition capacity_sum (chs : list lnrpc_msg.Channel) : Z :=
  fold_right Z.add 0 (map (fun ch => uint64 (lnrpc_msg.Capacity ch)) chs).

(** The slice [GetChannels] builds from the channels of the node. *)
Definition channels_slice (chs : list lnrpc_msg.Channel) : slice.t Channel :=
  match chs with
  | [] => None
  | _ => Some (map channel_of chs)
  end.

Module unhex.

(** Go's [hextable]. *)
Definition hextable : list ascii := list_ascii_of_string "0123456789abcdef".

(** The place of a character in a table, counted from [i]. *)
Fixpoint place (c : ascii) (table : list ascii) (i : N) : option N :=
  match table with
  | [] => None
  | d :: rest => if Ascii.eqb c d then Some i else place c rest (N.succ i)
  end.

(** The value of a hexadecimal digit in lower case. *)
Definition fromHexChar (c : ascii) : option N := place c hextable 0.

(** The byte two digits stand for. *)
Definition byte_of (hi lo : ascii) : option Byte.byte :=
  match fromHexChar hi, fromHexChar lo with
  | Some h, Some l => Byte.of_N (16 * h + l)
  | _, _ => None
  end.

(** The inverse of [hex.EncodeToString]. *)
Fixpoint DecodeString (s : string) : option (list Byte.byte) :=
  match s with
  | EmptyString => Some []
  | String hi (String lo rest) =>
      match byte_of hi lo, DecodeString rest with
      | Some b, Some bs => Some (b :: bs)
      | _, _ => None
      end
  | String _ EmptyString => None
  end.

End unhex.



Definition is_read_file {Mac} (e : setup_event Mac) : bool :=
  match e with
  | SetupReadFile _ _ _ => true
  | _ => false
  end.

(** The prefixes of the errors of [PayInvoice]. *)
Definition PayInvoice_error_prefixes : list string :=
  ["cannot decode invoice: ";
   "cannot get ZION balance: ";
   "insufficient ZION balance: ";
   "lightning payment failed: ";
   "payment error: "].

(** Test doubles for the node operations. *)
Record InfoNode := {
  info_answer : result lnrpc_msg.GetInfoResponse;
  channels_answer : result lnrpc_msg.ListChannelsResponse;
  invoice_answer : lnrpc_msg.Invoice -> result lnrpc_msg.AddInvoiceResponse
}.

#[export] Instance InfoNode_lnd : LightningNodeClient InfoNode := {
  GetInfo n _ := (n, info_answer n);
  ListChannels n _ := (n, channels_answer n);
  AddInvoice n _ req := (n, invoice_answer n req)
}.

Definition example_info : lnrpc_msg.GetInfoResponse := {|
  lnrpc_msg.IdentityPubkey := "02abc";
  lnrpc_msg.Alias := "zion";
  lnrpc_msg.NumActiveChannels := 2;
  lnrpc_msg.SyncedToChain := true;
  lnrpc_msg.Testnet := true
|}.

Definition example_channel (id capacity : Z) : lnrpc_msg.Channel := {|
  lnrpc_msg.ChanId := id;
  lnrpc_msg.RemotePubkey := "03def";
  lnrpc_msg.Capacity := capacity;
  lnrpc_msg.LocalBalance := 0;
  lnrpc_msg.RemoteBalance := capacity;
  lnrpc_msg.Active := true
|}.

Definition example_node (chans : result lnrpc_msg.ListChannelsResponse)
  : InfoNode := {|
  info_answer := Ok example_info;
  channels_answer := chans;
  invoice_answer := fun _ =>
    Ok {| lnrpc_msg.RHash := [Byte.x01; Byte.xab];
          lnrpc_msg.PaymentRequest := "lnbc10u1invoice" |}
|}.

Definition info_bridge (node : InfoNode)
  : ZionLightningBridge InfoNode ZionRPCClient :=
  {| lndClient := node;
     zionRPC := NewZionRPCClient (ZionRPCURL default_config);
     config := default_config |}.

(** A host with no certificate and no macaroon, on which every dial
    succeeds. *)
Definition bare_host : Host StubNode (list Byte.byte) := {|
  NewClientTLSFromFile := fun _ _ =>
    Some "open /lnd-certs/tls.cert: no such file or directory";
  os_Stat := fun _ =>
    Some "stat /lnd-certs/admin.macaroon: no such file or directory";
  ioutil_ReadFile := fun _ => Err "no such file or directory";
  UnmarshalBinary := fun data => Ok data;
  MarshalBinary := fun mac => Ok mac;
  grpc_Dial := fun _ _ => Ok (paying_node 1000)
|}.

(** A host with a certificate and a macaroon file that cannot be parsed. *)
Definition broken_macaroon_host : Host StubNode (list Byte.byte) := {|
  NewClientTLSFromFile := fun _ _ => None;
  os_Stat := fun _ => None;
  ioutil_ReadFile := fun _ => Ok [Byte.x00];
  UnmarshalBinary := fun _ => Err "unsupported macaroon version";
  MarshalBinary := fun mac => Ok mac;
  grpc_Dial := fun _ _ => Ok (paying_node 1000)
|}.

(** The value of a field of a JSON object. *)
Fixpoint lookup_field (key : string) (fields : list (string * json.value))
  : option json.value :=
  match fields with
  | [] => None
  | (k, v) :: rest => if (k =? key)%string then Some v else lookup_field key rest
  end.

Definition json_field (key : string) (v : json.value) : option json.value :=
  match v with
  | json.Object fields => lookup_field key fields
  | _ => None
  end.

(** The headers the middleware of [main] sets. *)
Definition cors_headers : list (string * string) :=
  [("Access-Control-Allow-Origin", "*");
   ("Access-Control-Allow-Methods", "GET, POST, PUT, DELETE, OPTIONS");
   ("Access-Control-Allow-Headers", "Content-Type, Authorization")].
(** * Evaluating the model *)

Example hex_EncodeToString_example :
  hex.EncodeToString [Byte.x00; Byte.x9f; Byte.xff] = "009fff".
Proof. reflexivity. Qed.

Example fmt_d_example : fmt_d 1000000 = "1000000" /\ fmt_d (-1) = "-1".
Proof. split; reflexivity. Qed.

Example uint64_example :
  uint64 (-1) = 18446744073709551615 /\ uint64 1000 = 1000.
Proof. split; reflexivity. Qed.

Example ZionRPC_SendTransaction_example :
  ZionRPC.SendTransaction (NewZionRPCClient "http://localhost:18089")
    "Z1account" "lightning_pool_address" 1000
  = (NewZionRPCClient "http://localhost:18089",
     ["ZION TX: Z1account -> lightning_pool_address: 1000 ZION"],
     None).
Proof. reflexivity. Qed.

(** * The runs of [PayInvoice] *)

Section Runs.

Context {L T : Type} `{LightningClient L} `{LedgerClient T}.

Lemma result_of_triple {A} (a : A) (z : ZionLightningBridge L T) evs :
  result_of (a, z, evs) = a.
Proof. reflexivity. Qed.

Lemma events_of_triple {A} (a : A) (z : ZionLightningBridge L T) evs :
  events_of (a, z, evs) = evs.
Proof. reflexivity. Qed.

Variable ctx : context_Context.
Variables invoice zionAddress : string.
Variable zlb : ZionLightningBridge L T.

Local Abbreviation run := (PayInvoice_run ctx invoice zionAddress zlb).
Local Abbreviation decode_failed := (run_decode_failed ctx invoice zionAddress zlb).
Local Abbreviation balance_failed := (run_balance_failed ctx invoice zionAddress zlb).
Local Abbreviation insufficient := (run_insufficient ctx invoice zionAddress zlb).
Local Abbreviation send_failed := (run_send_failed ctx invoice zionAddress zlb).
Local Abbreviation payment_error := (run_payment_error ctx invoice zionAddress zlb).
Local Abbreviation paid := (run_paid ctx invoice zionAddress zlb).

Ltac pay_unfold :=
  unfold PayInvoice, bind, lnd_DecodePayReq, zion_GetBalance,
    lnd_SendPaymentSync, zion_SendTransaction, decodeReq, sendReq,
    bridge_with, pool, ledger_leg_events in *; cbn.

(** A run determines what the function returns. *)
Lemma PayInvoice_run_eq res zlb' evs :
  run res zlb' evs ->
  PayInvoice ctx invoice zionAddress zlb = (res, zlb', evs).
Proof.
  intros Hrun.
  destruct Hrun as
    [ l1 e Hdec
    | l1 payReq t1 balance e Hdec Hbal
    | l1 payReq t1 balance Hdec Hbal Hlt
    | l1 payReq t1 balance l2 e Hdec Hbal Hge Hsend
    | l1 payReq t1 balance l2 payment Hdec Hbal Hge Hsend Hpe
    | l1 payReq t1 balance l2 payment t2 lines err
        Hdec Hbal Hge Hsend Hpe Htx ];
    pay_unfold; rewrite Hdec; cbn; try reflexivity;
    rewrite Hbal; cbn; try reflexivity.
  - apply Z.ltb_lt in Hlt. rewrite Hlt. reflexivity.
  - apply Z.ltb_ge in Hge. rewrite Hge. cbn. rewrite Hsend. reflexivity.
  - apply Z.ltb_ge in Hge. rewrite Hge. cbn. rewrite Hsend. cbn.
    apply String.eqb_neq in Hpe. rewrite Hpe. reflexivity.
  - apply Z.ltb_ge in Hge. rewrite Hge. cbn. rewrite Hsend. cbn.
    apply String.eqb_eq in Hpe. rewrite Hpe. cbn. rewrite Htx.
    destruct err; cbn; rewrite <- app_assoc; reflexivity.
Qed.

(** Every call of [PayInvoice] returns, and follows one of the six runs. *)
Lemma PayInvoice_runs :
  run
    (result_of (PayInvoice ctx invoice zionAddress zlb))
    (bridge_of (PayInvoice ctx invoice zionAddress zlb))
    (events_of (PayInvoice ctx invoice zionAddress zlb)).
Proof.
  assert (Hclose : forall res zlb' evs,
             run res zlb' evs ->
             run
               (result_of (PayInvoice ctx invoice zionAddress zlb))
               (bridge_of (PayInvoice ctx invoice zionAddress zlb))
               (events_of (PayInvoice ctx invoice zionAddress zlb))).
  { intros res zlb' evs Hr. now rewrite (PayInvoice_run_eq _ _ _ Hr). }
  destruct (DecodePayReq (lndClient zlb) ctx (decodeReq invoice))
    as [l1 [payReq | e]] eqn:Hdec.
  2: { exact (Hclose _ _ _ (decode_failed l1 e Hdec)). }
  destruct (GetBalance (zionRPC zlb) zionAddress)
    as [t1 [balance [e | ]]] eqn:Hbal.
  { exact (Hclose _ _ _
             (balance_failed l1 payReq t1 balance e Hdec Hbal)). }
  destruct (Z.lt_ge_cases balance (uint64 (lnrpc.NumSatoshis payReq)))
    as [Hlt | Hge].
  { exact (Hclose _ _ _
             (insufficient l1 payReq t1 balance Hdec Hbal Hlt)). }
  destruct (SendPaymentSync l1 ctx (sendReq invoice))
    as [l2 [payment | e]] eqn:Hsend.
  2: { exact (Hclose _ _ _
                (send_failed l1 payReq t1 balance l2 e
                   Hdec Hbal Hge Hsend)). }
  destruct (String.eqb_spec (lnrpc.PaymentError payment) "") as [Hpe | Hpe].
  2: { exact (Hclose _ _ _
                (payment_error l1 payReq t1 balance l2 payment
                   Hdec Hbal Hge Hsend Hpe)). }
  destruct (SendTransaction t1 zionAddress pool
              (uint64 (lnrpc.NumSatoshis payReq)))
    as [[t2 lines] err] eqn:Htx.
  exact (Hclose _ _ _
           (paid l1 payReq t1 balance l2 payment t2 lines err
              Hdec Hbal Hge Hsend Hpe Htx)).
Qed.

End Runs.

(** ** Facts about traces *)

Lemma uint64_small x : 0 <= x < 2 ^ 64 -> uint64 x = x.
Proof. intros Hx. unfold uint64. now apply Z.mod_small. Qed.

Lemma uint64_of_amount balance n :
  is_uint64 balance -> is_int64 n -> balance < n -> uint64 n = n.
Proof.
  unfold is_uint64, is_int64. intros Hb Hn Hlt. apply uint64_small. lia.
Qed.

Lemma existsb_logs (p : event -> bool) lines :
  (forall line, p (EvLog line) = false) ->
  existsb p (map EvLog lines) = false.
Proof.
  intros Hp. induction lines as [| line lines IH]; cbn.
  - reflexivity.
  - now rewrite Hp, IH.
Qed.

Lemma ledger_leg_no_send zionAddress amount lines err payment :
  existsb is_lightning_send
    (ledger_leg_events zionAddress amount lines err payment) = false.
Proof.
  unfold ledger_leg_events. rewrite !existsb_app, existsb_logs by reflexivity.
  destruct err; reflexivity.
Qed.

Lemma ledger_leg_no_failure zionAddress amount lines err payment :
  existsb is_leg_failure
    (ledger_leg_events zionAddress amount lines err payment) = false.
Proof.
  unfold ledger_leg_events. rewrite !existsb_app, existsb_logs by reflexivity.
  destruct err; reflexivity.
Qed.

Lemma count_app p l1 l2 : count p (l1 ++ l2) = (count p l1 + count p l2)%nat.
Proof. unfold count. now rewrite filter_app, length_app. Qed.

Lemma count_logs (p : event -> bool) lines :
  (forall line, p (EvLog line) = false) -> count p (map EvLog lines) = 0%nat.
Proof.
  intros Hp. unfold count. induction lines as [| line lines IH]; cbn.
  - reflexivity.
  - now rewrite Hp.
Qed.

Lemma ledger_leg_one_transfer zionAddress amount lines err payment :
  count is_ledger_transfer
    (ledger_leg_events zionAddress amount lines err payment) = 1%nat.
Proof.
  unfold ledger_leg_events. rewrite !count_app, count_logs by reflexivity.
  destruct err; reflexivity.
Qed.

(** An event satisfying [p] that occurs once in a trace has one place. *)
Lemma split_unique (p : event -> bool) l1 s l2 :
  existsb p l1 = false -> existsb p l2 = false ->
  forall before x after,
    (before ++ x :: after = l1 ++ s :: l2)%list -> p x = true ->
    before = l1 /\ x = s /\ after = l2.
Proof.
  intros H1 H2. induction l1 as [| a l1 IH]; intros before x after Heq Hx.
  - destruct before as [| b before]; cbn in Heq.
    + now inversion Heq.
    + inversion Heq; subst. rewrite existsb_app in H2. cbn in H2.
      rewrite Hx, orb_true_r in H2. discriminate.
  - cbn in H1. apply orb_false_iff in H1 as [Ha H1].
    destruct before as [| b before]; cbn in Heq.
    + inversion Heq; subst. congruence.
    + injection Heq as -> Heq.
      destruct (IH H1 before x after Heq Hx) as (-> & -> & ->). easy.
Qed.

Lemma no_split (p : event -> bool) l before x after :
  existsb p l = false -> l = (before ++ x :: after)%list -> p x = true ->
  False.
Proof.
  intros Hl -> Hx. rewrite existsb_app in Hl. cbn in Hl.
  rewrite Hx, orb_true_r in Hl. discriminate.
Qed.

(** * The pay operation with an insufficient balance *)

Section Insufficient.

Context {L T : Type} `{LightningClient L} `{LedgerClient T}.

(** C5: when the balance the ledger reports is smaller than the amount
    of the decoded invoice, [PayInvoice] fails with the insufficient
    balance error, and the only calls made are the decoding of the
    invoice and the balance query: no Lightning payment is sent and no
    ledger transfer is requested. *)
Theorem PayInvoice_insufficient_funds
    ctx invoice zionAddress (zlb : ZionLightningBridge L T)
    l1 payReq t1 balance :
  DecodePayReq (lndClient zlb) ctx (decodeReq invoice) = (l1, Ok payReq) ->
  GetBalance (zionRPC zlb) zionAddress = (t1, (balance, None)) ->
  is_uint64 balance ->
  is_int64 (lnrpc.NumSatoshis payReq) ->
  balance < lnrpc.NumSatoshis payReq ->
  let run := PayInvoice ctx invoice zionAddress zlb in
  result_of run =
    Some ("insufficient ZION balance: " ++ fmt_d balance ++ " < "
          ++ fmt_d (lnrpc.NumSatoshis payReq))
  /\ existsb is_lightning_send (events_of run) = false
  /\ existsb is_external_mutation (events_of run) = false
  /\ events_of run =
       [EvDecodePayReq (decodeReq invoice) (Ok payReq);
        EvGetBalance zionAddress balance None].
Proof.
  intros Hdec Hbal Hb Hn Hlt run. subst run.
  assert (Hlt' : balance < uint64 (lnrpc.NumSatoshis payReq)).
  { now rewrite (uint64_of_amount balance _ Hb Hn Hlt). }
  rewrite (PayInvoice_run_eq ctx invoice zionAddress zlb _ _ _
             (run_insufficient ctx invoice zionAddress zlb
                l1 payReq t1 balance Hdec Hbal Hlt')).
  repeat split; reflexivity.
Qed.

End Insufficient.

(** The scenario of the specification: amount 1000, balance 500. *)
Lemma PayInvoice_insufficient_funds_witness :
  let run :=
    PayInvoice Background "lnbc10u1invoice" "Z1account"
      (stub_bridge (paying_node 1000)
         {| balance_answer := (500, None); transfer_answer := None |}) in
  result_of run = Some "insufficient ZION balance: 500 < 1000"
  /\ existsb is_lightning_send (events_of run) = false
  /\ existsb is_external_mutation (events_of run) = false
  /\ events_of run =
       [EvDecodePayReq (decodeReq "lnbc10u1invoice")
          (Ok {| lnrpc.NumSatoshis := 1000 |});
        EvGetBalance "Z1account" 500 None].
Proof.
  apply (PayInvoice_insufficient_funds (L:=StubNode) (T:=StubLedger)
           Background "lnbc10u1invoice" "Z1account"
           (stub_bridge (paying_node 1000)
              {| balance_answer := (500, None); transfer_answer := None |})
           (paying_node 1000) {| lnrpc.NumSatoshis := 1000 |}
           {| balance_answer := (500, None); transfer_answer := None |} 500).
  - reflexivity.
  - reflexivity.
  - unfold is_uint64. lia.
  - unfold is_int64. cbn. lia.
  - cbn. lia.
Defined.

(** * Order of the two legs *)

Section Ordering.

Context {L T : Type} `{LightningClient L} `{LedgerClient T}.

(** C6: in every run of [PayInvoice], a Lightning payment request is
    only ever issued after the invoice was decoded and the ledger
    answered the balance query without error with a balance that covers
    the amount of the invoice; and it is issued once. *)
Theorem PayInvoice_send_after_balance_check
    ctx invoice zionAddress (zlb : ZionLightningBridge L T)
    before req resp after :
  events_of (PayInvoice ctx invoice zionAddress zlb)
    = (before ++ EvSendPaymentSync req resp :: after)%list ->
  exists payReq balance,
    before = [EvDecodePayReq (decodeReq invoice) (Ok payReq);
              EvGetBalance zionAddress balance None]
    /\ uint64 (lnrpc.NumSatoshis payReq) <= balance
    /\ req = sendReq invoice
    /\ existsb is_lightning_send after = false.
Proof.
  intros Hev.
  pose proof (PayInvoice_runs ctx invoice zionAddress zlb) as Hrun.
  rewrite Hev in Hrun. clear Hev.
  remember (before ++ EvSendPaymentSync req resp :: after)%list as evs
    eqn:Hevs.
  destruct Hrun as
    [ l1 e Hdec
    | l1 payReq t1 balance e Hdec Hbal
    | l1 payReq t1 balance Hdec Hbal Hlt
    | l1 payReq t1 balance l2 e Hdec Hbal Hge Hsend
    | l1 payReq t1 balance l2 payment Hdec Hbal Hge Hsend Hpe
    | l1 payReq t1 balance l2 payment t2 lines err
        Hdec Hbal Hge Hsend Hpe Htx ].
  - exfalso. eapply (no_split is_lightning_send); eauto. reflexivity.
  - exfalso. eapply (no_split is_lightning_send); eauto. reflexivity.
  - exfalso. eapply (no_split is_lightning_send); eauto. reflexivity.
  - symmetry in Hevs.
    apply (split_unique is_lightning_send
             [EvDecodePayReq (decodeReq invoice) (Ok payReq);
              EvGetBalance zionAddress balance None] _ [])
      in Hevs as (-> & Hx & ->); try reflexivity.
    inversion Hx; subst. exists payReq, balance. now repeat split.
  - symmetry in Hevs.
    apply (split_unique is_lightning_send
             [EvDecodePayReq (decodeReq invoice) (Ok payReq);
              EvGetBalance zionAddress balance None] _ [])
      in Hevs as (-> & Hx & ->); try reflexivity.
    inversion Hx; subst. exists payReq, balance. now repeat split.
  - symmetry in Hevs.
    apply (split_unique is_lightning_send
             [EvDecodePayReq (decodeReq invoice) (Ok payReq);
              EvGetBalance zionAddress balance None] _
             (ledger_leg_events zionAddress
                (uint64 (lnrpc.NumSatoshis payReq)) lines err payment))
      in Hevs as (-> & Hx & ->);
      try reflexivity; try apply ledger_leg_no_send.
    inversion Hx; subst. exists payReq, balance.
    repeat split; try easy. apply ledger_leg_no_send.
Qed.

End Ordering.

Lemma PayInvoice_send_after_balance_check_witness :
  exists payReq balance,
    [EvDecodePayReq (decodeReq "lnbc10u1invoice")
       (Ok {| lnrpc.NumSatoshis := 1000 |});
     EvGetBalance "Z1account" 1000000 None]
    = [EvDecodePayReq (decodeReq "lnbc10u1invoice") (Ok payReq);
       EvGetBalance "Z1account" balance None]
    /\ uint64 (lnrpc.NumSatoshis payReq) <= balance
    /\ sendReq "lnbc10u1invoice" = sendReq "lnbc10u1invoice"
    /\ existsb is_lightning_send
         [EvLog "ZION TX: Z1account -> lightning_pool_address: 1000 ZION";
          EvSendTransaction "Z1account" pool 1000 None;
          EvLog (success_line paid_response)] = false.
Proof.
  apply (PayInvoice_send_after_balance_check (L:=StubNode) (T:=ZionRPCClient)
           Background "lnbc10u1invoice" "Z1account"
           (source_bridge (paying_node 1000))
           [EvDecodePayReq (decodeReq "lnbc10u1invoice")
              (Ok {| lnrpc.NumSatoshis := 1000 |});
            EvGetBalance "Z1account" 1000000 None]
           (sendReq "lnbc10u1invoice") (Ok paid_response)
           [EvLog "ZION TX: Z1account -> lightning_pool_address: 1000 ZION";
            EvSendTransaction "Z1account" pool 1000 None;
            EvLog (success_line paid_response)]).
  reflexivity.
Defined.

(** * The Lightning leg fails: nothing moves on the ledger *)

Section LightningLegFails.

Context {L T : Type} `{LightningClient L} `{LedgerClient T}.

(** C7: when the Lightning leg fails (decode error, balance fetch error,
    insufficient balance, send error, or a non-empty payment error),
    [PayInvoice] returns an error and has requested no ledger transfer:
    the ledger was at most asked for the balance. *)
Theorem PayInvoice_failed_leg_no_transfer
    ctx invoice zionAddress (zlb : ZionLightningBridge L T) :
  lightning_leg_failed (events_of (PayInvoice ctx invoice zionAddress zlb))
    = true ->
  existsb is_ledger_transfer
    (events_of (PayInvoice ctx invoice zionAddress zlb)) = false
  /\ result_of (PayInvoice ctx invoice zionAddress zlb) <> None.
Proof.
  pose proof (PayInvoice_runs ctx invoice zionAddress zlb) as Hrun.
  destruct Hrun as
    [ l1 e Hdec
    | l1 payReq t1 balance e Hdec Hbal
    | l1 payReq t1 balance Hdec Hbal Hlt
    | l1 payReq t1 balance l2 e Hdec Hbal Hge Hsend
    | l1 payReq t1 balance l2 payment Hdec Hbal Hge Hsend Hpe
    | l1 payReq t1 balance l2 payment t2 lines err
        Hdec Hbal Hge Hsend Hpe Htx ];
    intros Hfail; try (split; [reflexivity | discriminate]).
  exfalso. unfold lightning_leg_failed, balance_insufficient in Hfail.
  rewrite existsb_app, ledger_leg_no_failure in Hfail. cbn in Hfail.
  apply String.eqb_eq in Hpe. rewrite Hpe in Hfail. cbn in Hfail.
  apply Z.ltb_ge in Hge. rewrite Hge in Hfail. discriminate.
Qed.

(** The converse: an error is only ever returned in those five ways. *)
Lemma PayInvoice_error_leg_failed
    ctx invoice zionAddress (zlb : ZionLightningBridge L T) :
  result_of (PayInvoice ctx invoice zionAddress zlb) <> None ->
  lightning_leg_failed (events_of (PayInvoice ctx invoice zionAddress zlb))
    = true.
Proof.
  pose proof (PayInvoice_runs ctx invoice zionAddress zlb) as Hrun.
  destruct Hrun as
    [ l1 e Hdec
    | l1 payReq t1 balance e Hdec Hbal
    | l1 payReq t1 balance Hdec Hbal Hlt
    | l1 payReq t1 balance l2 e Hdec Hbal Hge Hsend
    | l1 payReq t1 balance l2 payment Hdec Hbal Hge Hsend Hpe
    | l1 payReq t1 balance l2 payment t2 lines err
        Hdec Hbal Hge Hsend Hpe Htx ];
    intros Herr; try reflexivity.
  - unfold lightning_leg_failed, balance_insufficient. cbn.
    apply Z.ltb_lt in Hlt. now rewrite Hlt.
  - unfold lightning_leg_failed. cbn.
    apply String.eqb_neq in Hpe. now rewrite Hpe.
  - congruence.
Qed.

End LightningLegFails.

Lemma PayInvoice_failed_leg_no_transfer_witness :
  existsb is_ledger_transfer
    (events_of (PayInvoice Background "lnbc10u1invoice" "Z1account"
                  (source_bridge unreachable_node))) = false
  /\ result_of (PayInvoice Background "lnbc10u1invoice" "Z1account"
                  (source_bridge unreachable_node)) <> None.
Proof.
  apply (PayInvoice_failed_leg_no_transfer (L:=StubNode) (T:=ZionRPCClient)
           Background "lnbc10u1invoice" "Z1account"
           (source_bridge unreachable_node)).
  reflexivity.
Defined.

(** * The ledger client of the source *)

Section SourceLedger.

Context {L : Type} `{LightningClient L}.

Ltac source_runs Hrun :=
  destruct Hrun as
    [ l1' e Hdec'
    | l1' payReq' t1 balance e Hdec' Hbal
    | l1' payReq' t1 balance Hdec' Hbal Hlt
    | l1' payReq' t1 balance l2 e Hdec' Hbal Hge Hsend
    | l1' payReq' t1 balance l2 payment Hdec' Hbal Hge Hsend Hpe
    | l1' payReq' t1 balance l2 payment t2 lines err
        Hdec' Hbal Hge Hsend Hpe Htx ];
  try (cbn in Hbal; injection Hbal as <- <-; try discriminate).

(** The ledger client of the source is never changed by [PayInvoice]. *)
Lemma PayInvoice_source_client_unchanged
    ctx invoice address (zlb : ZionLightningBridge L ZionRPCClient) :
  zionRPC (bridge_of (PayInvoice ctx invoice address zlb)) = zionRPC zlb.
Proof.
  pose proof (PayInvoice_runs ctx invoice address zlb) as Hrun.
  source_runs Hrun; try reflexivity.
  cbn in Htx. now injection Htx as <- _ _.
Qed.

(** C9: [GetBalance] answers 1000000 and no error for every address;
    so, once the invoice is decoded, [PayInvoice] rejects for
    insufficient balance exactly when the amount of the invoice, as the
    bridge reads it ([uint64(payReq.NumSatoshis)]), exceeds 1000000,
    whatever the address; for an amount that is not negative this is the
    amount of the invoice itself. *)
Theorem ZionRPC_GetBalance_constant :
  (forall zrc address,
      ZionRPC.GetBalance zrc address = (zrc, (1000000, None)))
  /\ (forall ctx invoice address (zlb : ZionLightningBridge L ZionRPCClient)
             l1 payReq,
        DecodePayReq (lndClient zlb) ctx (decodeReq invoice)
          = (l1, Ok payReq) ->
        (is_insufficient_rejection
           (result_of (PayInvoice ctx invoice address zlb)) = true
         <-> 1000000 < uint64 (lnrpc.NumSatoshis payReq))
        /\ (0 <= lnrpc.NumSatoshis payReq < 2 ^ 64 ->
            (is_insufficient_rejection
               (result_of (PayInvoice ctx invoice address zlb)) = true
             <-> 1000000 < lnrpc.NumSatoshis payReq))).
Proof.
  split; [reflexivity |].
  intros ctx invoice address zlb l1 payReq Hdec.
  assert (Hiff : is_insufficient_rejection
                   (result_of (PayInvoice ctx invoice address zlb)) = true
                 <-> 1000000 < uint64 (lnrpc.NumSatoshis payReq)).
  { pose proof (PayInvoice_runs ctx invoice address zlb) as Hrun.
    source_runs Hrun;
      rewrite Hdec in Hdec'; try discriminate;
      injection Hdec' as <- <-; cbn.
    - split; [intros _; exact Hlt | reflexivity].
    - split; [discriminate | lia].
    - split; [discriminate | lia].
    - split; [discriminate | lia]. }
  split; [exact Hiff |].
  intros Hn. now rewrite <- (uint64_small _ Hn).
Qed.

(** C10: [SendTransaction] returns no error whatever it is given; so in
    no run of [PayInvoice] does a ledger transfer fail or is the warning
    of a failed deduction logged, and [PayInvoice] returns success
    whenever (and only when) the Lightning payment went through. *)
Theorem ZionRPC_SendTransaction_never_fails :
  (forall zrc from to amount,
      snd (ZionRPC.SendTransaction zrc from to amount) = None)
  /\ (forall ctx invoice address (zlb : ZionLightningBridge L ZionRPCClient),
        let run := PayInvoice ctx invoice address zlb in
        existsb is_ledger_transfer_failed (events_of run) = false
        /\ existsb is_deduction_warning (events_of run) = false
        /\ (existsb is_lightning_paid (events_of run) = true
            <-> result_of run = None)).
Proof.
  split; [reflexivity |].
  intros ctx invoice address zlb run. subst run.
  pose proof (PayInvoice_runs ctx invoice address zlb) as Hrun.
  source_runs Hrun.
  - repeat split; try reflexivity; discriminate.
  - repeat split; try reflexivity; discriminate.
  - repeat split; try reflexivity; discriminate.
  - apply String.eqb_neq in Hpe.
    repeat split; try reflexivity; cbn; rewrite Hpe; discriminate.
  - cbn in Htx. injection Htx as <- <- <-.
    apply String.eqb_eq in Hpe.
    repeat split; try reflexivity.
    cbn. now rewrite Hpe.
Qed.

End SourceLedger.

(** An invoice for 2000000 is rejected, one for 1000 is not. *)
Lemma ZionRPC_GetBalance_constant_witness :
  (is_insufficient_rejection
     (result_of (PayInvoice Background "lnbc20m1invoice" "Z1account"
                   (source_bridge (paying_node 2000000)))) = true
   <-> 1000000 < 2000000)
  /\ (is_insufficient_rejection
        (result_of (PayInvoice Background "lnbc10u1invoice" "Z2account"
                      (source_bridge (paying_node 1000)))) = true
      <-> 1000000 < 1000).
Proof.
  split.
  - refine (proj1 (proj2 (ZionRPC_GetBalance_constant (L:=StubNode))
                     Background "lnbc20m1invoice" "Z1account"
                     (source_bridge (paying_node 2000000))
                     (paying_node 2000000)
                     {| lnrpc.NumSatoshis := 2000000 |} _)).
    reflexivity.
  - refine (proj1 (proj2 (ZionRPC_GetBalance_constant (L:=StubNode))
                     Background "lnbc10u1invoice" "Z2account"
                     (source_bridge (paying_node 1000))
                     (paying_node 1000)
                     {| lnrpc.NumSatoshis := 1000 |} _)).
    reflexivity.
Defined.

(** A decoded amount of -1 is read as 18446744073709551615 and rejected,
    with the signed amount in the message. *)
Example PayInvoice_negative_amount :
  result_of (PayInvoice Background "lnbc1invoice" "Z1account"
               (source_bridge (paying_node (-1))))
  = Some "insufficient ZION balance: 1000000 < -1".
Proof. reflexivity. Qed.

(** * A payment that went through and a ledger that did not follow *)

(** C1: the two ledgers may diverge for good.  On the bridge as the
    source wires it, a payment of 1000 goes out on Lightning and
    [PayInvoice] returns success, while the ledger transfer is a log
    line only: the ledger client is left as it was and still reports
    the balance 1000000.  The lines that follow the transfer request
    do not depend on a ledger that follows: whatever a ledger client
    answers to the request, a refusal included, the payment has gone
    out, a refusal is logged, and [PayInvoice] still returns success;
    nothing is retried or undone. *)
Theorem PayInvoice_paid_ledger_not_debited :
  PayInvoice Background "lnbc10u1invoice" "Z1account"
    (source_bridge (paying_node 1000))
  = (None,
     source_bridge (paying_node 1000),
     [EvDecodePayReq (decodeReq "lnbc10u1invoice")
        (Ok {| lnrpc.NumSatoshis := 1000 |});
      EvGetBalance "Z1account" 1000000 None;
      EvSendPaymentSync (sendReq "lnbc10u1invoice") (Ok paid_response);
      EvLog "ZION TX: Z1account -> lightning_pool_address: 1000 ZION";
      EvSendTransaction "Z1account" pool 1000 None;
      EvLog "⚡ Lightning payment successful: 01ab"])
  /\ snd (ZionRPC.GetBalance
            (zionRPC (bridge_of (PayInvoice Background "lnbc10u1invoice"
                                   "Z1account"
                                   (source_bridge (paying_node 1000)))))
            "Z1account")
     = (1000000, None)
  /\ forall answer : error,
       PayInvoice Background "lnbc10u1invoice" "Z1account"
         (stub_bridge (paying_node 1000)
            {| balance_answer := (5000, None); transfer_answer := answer |})
       = (None,
          stub_bridge (paying_node 1000)
            {| balance_answer := (5000, None); transfer_answer := answer |},
          ([EvDecodePayReq (decodeReq "lnbc10u1invoice")
              (Ok {| lnrpc.NumSatoshis := 1000 |});
            EvGetBalance "Z1account" 5000 None;
            EvSendPaymentSync (sendReq "lnbc10u1invoice") (Ok paid_response);
            EvSendTransaction "Z1account" pool 1000 answer]
           ++ warning_events answer
           ++ [EvLog "⚡ Lightning payment successful: 01ab"])%list).
Proof.
  split; [reflexivity | split; [reflexivity |]].
  intros [msg | ]; reflexivity.
Qed.

(** * Success is the success of the Lightning payment *)

Section PaidOutcome.

Context {L T : Type} `{LightningClient L} `{LedgerClient T}.

(** Whatever the ledger answers, [PayInvoice] returns success exactly
    when the Lightning payment went through. *)
Lemma PayInvoice_success_iff_paid
    ctx invoice zionAddress (zlb : ZionLightningBridge L T) :
  result_of (PayInvoice ctx invoice zionAddress zlb) = None
  <-> existsb is_lightning_paid
        (events_of (PayInvoice ctx invoice zionAddress zlb)) = true.
Proof.
  pose proof (PayInvoice_runs ctx invoice zionAddress zlb) as Hrun.
  destruct Hrun as
    [ l1 e Hdec
    | l1 payReq t1 balance e Hdec Hbal
    | l1 payReq t1 balance Hdec Hbal Hlt
    | l1 payReq t1 balance l2 e Hdec Hbal Hge Hsend
    | l1 payReq t1 balance l2 payment Hdec Hbal Hge Hsend Hpe
    | l1 payReq t1 balance l2 payment t2 lines err
        Hdec Hbal Hge Hsend Hpe Htx ];
    try (split; discriminate).
  - apply String.eqb_neq in Hpe. cbn. rewrite Hpe. split; discriminate.
  - apply String.eqb_eq in Hpe. cbn. rewrite Hpe. now split.
Qed.

End PaidOutcome.

(** * Repeated calls for one invoice *)

(** C3 as stated fails: two calls in a row for the same invoice send
    the Lightning payment request twice.  On a node that settles every
    request both payments go through, and the ledger transfer is
    requested twice as well; on a node that refuses an invoice it has
    settled, the second request is sent all the same and it is the node
    that turns it down. *)
Lemma PayInvoice_twice_pays_twice :
  (let run :=
     PayInvoice_twice Background "lnbc10u1invoice" "Z1account"
       (source_bridge (paying_node 1000)) in
   result_of run = None
   /\ count is_lightning_send (events_of run) = 2%nat
   /\ count is_lightning_paid (events_of run) = 2%nat
   /\ count is_ledger_transfer (events_of run) = 2%nat
   /\ filter is_lightning_send (events_of run)
      = [EvSendPaymentSync (sendReq "lnbc10u1invoice") (Ok paid_response);
         EvSendPaymentSync (sendReq "lnbc10u1invoice") (Ok paid_response)])
  /\ (let run :=
        PayInvoice_twice Background "lnbc10u1invoice" "Z1account"
          {| lndClient := {| settled := [] |};
             zionRPC := NewZionRPCClient (ZionRPCURL default_config);
             config := default_config |} in
      result_of run = Some "payment error: invoice is already paid"
      /\ count is_lightning_send (events_of run) = 2%nat
      /\ count is_lightning_paid (events_of run) = 1%nat).
Proof. cbv zeta. repeat split. Qed.

Lemma ledger_leg_send_count zionAddress amount lines err payment :
  count is_lightning_send
    (ledger_leg_events zionAddress amount lines err payment) = 0%nat.
Proof.
  unfold ledger_leg_events. rewrite !count_app, count_logs by reflexivity.
  destruct err; reflexivity.
Qed.

Lemma In_existsb (p : event -> bool) x l :
  In x l -> p x = true -> existsb p l = true.
Proof. intros Hin Hx. apply existsb_exists. now exists x. Qed.

Lemma ledger_leg_no_send_filter zionAddress amount lines err payment :
  filter is_lightning_send
    (ledger_leg_events zionAddress amount lines err payment) = [].
Proof.
  apply length_zero_iff_nil.
  exact (ledger_leg_send_count zionAddress amount lines err payment).
Qed.

Section AtMostOnce.

Context {L T : Type} `{LightningClient L} `{LedgerClient T}.

(** Once the invoice decodes and the reported balance covers its
    amount, the payment request is sent, whatever the bridge did
    before: the one request of the call is the one for the invoice, with
    the answer of the node. *)
Lemma PayInvoice_sends_when_covered
    ctx invoice zionAddress (zlb : ZionLightningBridge L T)
    l1 payReq t1 balance :
  DecodePayReq (lndClient zlb) ctx (decodeReq invoice) = (l1, Ok payReq) ->
  GetBalance (zionRPC zlb) zionAddress = (t1, (balance, None)) ->
  uint64 (lnrpc.NumSatoshis payReq) <= balance ->
  filter is_lightning_send (events_of (PayInvoice ctx invoice zionAddress zlb))
  = [EvSendPaymentSync (sendReq invoice)
       (snd (SendPaymentSync l1 ctx (sendReq invoice)))].
Proof.
  intros Hdec Hbal Hge.
  destruct (SendPaymentSync l1 ctx (sendReq invoice)) as [l2 [payment | e]]
    eqn:Hsend.
  - destruct (String.eqb_spec (lnrpc.PaymentError payment) "") as [Hpe | Hpe].
    + destruct (SendTransaction t1 zionAddress pool
                  (uint64 (lnrpc.NumSatoshis payReq)))
        as [[t2 lines] err] eqn:Htx.
      rewrite (PayInvoice_run_eq ctx invoice zionAddress zlb _ _ _
                 (run_paid ctx invoice zionAddress zlb
                    l1 payReq t1 balance l2 payment t2 lines err
                    Hdec Hbal Hge Hsend Hpe Htx)).
      rewrite events_of_triple, filter_app, ledger_leg_no_send_filter.
      reflexivity.
    + now rewrite (PayInvoice_run_eq ctx invoice zionAddress zlb _ _ _
                     (run_payment_error ctx invoice zionAddress zlb
                        l1 payReq t1 balance l2 payment
                        Hdec Hbal Hge Hsend Hpe)).
  - now rewrite (PayInvoice_run_eq ctx invoice zionAddress zlb _ _ _
                   (run_send_failed ctx invoice zionAddress zlb
                      l1 payReq t1 balance l2 e Hdec Hbal Hge Hsend)).
Qed.

Lemma PayInvoice_twice_events
    ctx invoice zionAddress (zlb : ZionLightningBridge L T) :
  events_of (PayInvoice_twice ctx invoice zionAddress zlb)
  = (events_of (PayInvoice ctx invoice zionAddress zlb)
     ++ events_of
          (PayInvoice ctx invoice zionAddress
             (bridge_of (PayInvoice ctx invoice zionAddress zlb))))%list.
Proof.
  unfold PayInvoice_twice, bind, events_of, bridge_of.
  destruct (PayInvoice ctx invoice zionAddress zlb) as [[res1 zlb1] ev1].
  cbn.
  destruct (PayInvoice ctx invoice zionAddress zlb1) as [[res2 zlb2] ev2].
  reflexivity.
Qed.

(** C3, amended: one call of [PayInvoice] issues at most one Lightning
    payment request, and the request carries the invoice and nothing
    else; it issues that request whenever the invoice decodes and the
    reported balance covers its amount.  The bridge keeps nothing
    between calls: a call changes the states of the two collaborators
    only, a second call for the same invoice is a call like the first
    one on the collaborators as the first call left them, and it sends
    the payment request again whenever the invoice still decodes and
    the reported balance still covers its amount, whatever the first
    call did.  Only the node can turn the repeated payment down. *)
Theorem PayInvoice_sends_at_most_once
    ctx invoice zionAddress (zlb : ZionLightningBridge L T) :
  (count is_lightning_send
     (events_of (PayInvoice ctx invoice zionAddress zlb)) <= 1)%nat
  /\ (forall req resp,
        In (EvSendPaymentSync req resp)
          (events_of (PayInvoice ctx invoice zionAddress zlb)) ->
        req = {| lnrpc.PaymentRequest_ := invoice |})
  /\ events_of (PayInvoice_twice ctx invoice zionAddress zlb)
     = (events_of (PayInvoice ctx invoice zionAddress zlb)
        ++ events_of
             (PayInvoice ctx invoice zionAddress
                (bridge_of (PayInvoice ctx invoice zionAddress zlb))))%list
  /\ (forall l1 payReq t1 balance,
        DecodePayReq (lndClient zlb) ctx (decodeReq invoice)
          = (l1, Ok payReq) ->
        GetBalance (zionRPC zlb) zionAddress = (t1, (balance, None)) ->
        uint64 (lnrpc.NumSatoshis payReq) <= balance ->
        filter is_lightning_send
          (events_of (PayInvoice ctx invoice zionAddress zlb))
        = [EvSendPaymentSync (sendReq invoice)
             (snd (SendPaymentSync l1 ctx (sendReq invoice)))])
  /\ config (bridge_of (PayInvoice ctx invoice zionAddress zlb)) = config zlb
  /\ (forall l1 payReq t1 balance,
        DecodePayReq
          (lndClient (bridge_of (PayInvoice ctx invoice zionAddress zlb)))
          ctx (decodeReq invoice) = (l1, Ok payReq) ->
        GetBalance
          (zionRPC (bridge_of (PayInvoice ctx invoice zionAddress zlb)))
          zionAddress = (t1, (balance, None)) ->
        uint64 (lnrpc.NumSatoshis payReq) <= balance ->
        filter is_lightning_send
          (events_of (PayInvoice_twice ctx invoice zionAddress zlb))
        = (filter is_lightning_send
             (events_of (PayInvoice ctx invoice zionAddress zlb))
           ++ [EvSendPaymentSync (sendReq invoice)
                 (snd (SendPaymentSync l1 ctx (sendReq invoice)))])%list).
Proof.
  split; [| split; [| split; [| split; [| split]]]].
  - pose proof (PayInvoice_runs ctx invoice zionAddress zlb) as Hrun.
    destruct Hrun; try (cbn; lia).
    rewrite count_app, ledger_leg_send_count. cbn. lia.
  - pose proof (PayInvoice_runs ctx invoice zionAddress zlb) as Hrun.
    destruct Hrun; intros req resp Hin;
      try (cbn in Hin; intuition (try discriminate);
           match goal with
           | Heq : EvSendPaymentSync _ _ = EvSendPaymentSync _ _ |- _ =>
               now injection Heq as <- _
           end).
    apply in_app_or in Hin as [Hin | Hin].
    + cbn in Hin. intuition (try discriminate).
      match goal with
      | Heq : EvSendPaymentSync _ _ = EvSendPaymentSync _ _ |- _ =>
          now injection Heq as <- _
      end.
    + exfalso.
      pose proof (In_existsb is_lightning_send _ _ Hin eq_refl) as Hex.
      rewrite ledger_leg_no_send in Hex. discriminate.
  - apply PayInvoice_twice_events.
  - apply PayInvoice_sends_when_covered.
  - pose proof (PayInvoice_runs ctx invoice zionAddress zlb) as Hrun.
    destruct Hrun; reflexivity.
  - intros l1 payReq t1 balance Hdec Hbal Hge.
    rewrite PayInvoice_twice_events, filter_app.
    now rewrite (PayInvoice_sends_when_covered ctx invoice zionAddress _
                   l1 payReq t1 balance Hdec Hbal Hge).
Qed.

End AtMostOnce.

(** * Strings as the encoder writes them *)

Lemma string_from_valid (s : string) (skip : nat) :
  utf8.valid_from skip s = true -> encoding_json.string_from skip s = s.
Proof.
  revert skip. induction s as [| c rest IH]; intros skip Hv; [reflexivity |].
  cbn in *. destruct skip as [| k].
  - destruct (utf8.rune_width c rest) as [width |]; [| discriminate].
    now rewrite IH.
  - now rewrite IH.
Qed.

(** A string that is valid UTF-8 is written as it is. *)
Lemma encoding_json_string_valid (s : string) :
  utf8.ValidString s = true -> encoding_json.string s = s.
Proof. apply string_from_valid. Qed.

(** A byte that starts no rune is written as U+FFFD, and so is each
    byte of a rune that is cut short. *)
Example encoding_json_string_invalid :
  encoding_json.string ("bad " ++ String (ascii_of_N 255) " byte")
  = "bad " ++ utf8.replacement " byte"
  /\ encoding_json.string (String (ascii_of_N 226) (String (ascii_of_N 154) "x"))
     = utf8.replacement (utf8.replacement "x")
  /\ utf8.ValidString ("bad " ++ String (ascii_of_N 255) " byte") = false.
Proof. repeat split. Qed.

(** Text in UTF-8 of one to four bytes per rune is left alone. *)
Example encoding_json_string_utf8 :
  utf8.ValidString "⚡ é 𝄞 ok" = true
  /\ encoding_json.string "⚡ é 𝄞 ok" = "⚡ é 𝄞 ok".
Proof. split; reflexivity. Qed.

(** * The handler of the pay route *)

Lemma append_empty_r (s : string) : s ++ "" = s.
Proof. induction s as [| a s IH]; cbn; [reflexivity | now rewrite IH]. Qed.

Lemma occurs_in_suffix (before part : string) : occurs_in part (before ++ part).
Proof. exists before, "". now rewrite append_empty_r. Qed.

Section HandlerFacts.

Context {L T : Type} `{LightningClient L} `{LedgerClient T}.

(** Once the request is bound, the handler is [PayInvoice] followed by
    the response for what it returned. *)
Lemma handlePayInvoice_bound c req (zlb : ZionLightningBridge L T) :
  gin.ShouldBindJSON c = Ok req ->
  handlePayInvoice c zlb
  = (response_for
       (result_of (PayInvoice Background (Invoice req) (ZionAddress req) zlb)),
     bridge_of (PayInvoice Background (Invoice req) (ZionAddress req) zlb),
     events_of (PayInvoice Background (Invoice req) (ZionAddress req) zlb)).
Proof.
  intros Hbind. unfold handlePayInvoice, bind, result_of, bridge_of, events_of.
  rewrite Hbind.
  destruct (PayInvoice Background (Invoice req) (ZionAddress req) zlb)
    as [[[msg | ] zlb1] evs]; cbn; now rewrite app_nil_r.
Qed.

Lemma handlePayInvoice_unbound c msg (zlb : ZionLightningBridge L T) :
  gin.ShouldBindJSON c = Err msg ->
  handlePayInvoice c zlb
  = ({| gin.code := http.StatusBadRequest; gin.obj := [("error", msg)] |},
     zlb, []).
Proof. intros Hbind. unfold handlePayInvoice. now rewrite Hbind. Qed.

(** C4, amended: the amount the caller supplies is not consulted: two
    requests that differ in it only are handled alike, so a mismatch
    with the amount of the invoice is not rejected.  An invoice that
    does not decode is answered with an error and without any external
    mutation, and what is paid and transferred is the amount of the
    decoded invoice. *)
Theorem handlePayInvoice_ignores_amount
    invoice zionAddress amount1 amount2 (zlb : ZionLightningBridge L T) :
  handlePayInvoice
    (bound {| Invoice := invoice; ZionAddress := zionAddress;
              Amount := amount1 |}) zlb
  = handlePayInvoice
      (bound {| Invoice := invoice; ZionAddress := zionAddress;
                Amount := amount2 |}) zlb
  /\ (forall l1 e,
        DecodePayReq (lndClient zlb) Background (decodeReq invoice)
          = (l1, Err e) ->
        handlePayInvoice
          (bound {| Invoice := invoice; ZionAddress := zionAddress;
                    Amount := amount1 |}) zlb
        = ({| gin.code := http.StatusInternalServerError;
              gin.obj := [("error", "cannot decode invoice: " ++ e)] |},
           bridge_with zlb l1 (zionRPC zlb),
           [EvDecodePayReq (decodeReq invoice) (Err e)]))
  /\ (forall from to amount err,
        In (EvSendTransaction from to amount err)
          (events_of
             (handlePayInvoice
                (bound {| Invoice := invoice; ZionAddress := zionAddress;
                          Amount := amount1 |}) zlb)) ->
        decoded_amount
          (events_of
             (handlePayInvoice
                (bound {| Invoice := invoice; ZionAddress := zionAddress;
                          Amount := amount1 |}) zlb)) = Some amount).
Proof.
  split; [reflexivity | split].
  - intros l1 e Hdec.
    rewrite (handlePayInvoice_bound (bound _) _ zlb eq_refl). cbn.
    now rewrite (PayInvoice_run_eq Background invoice zionAddress zlb _ _ _
                   (run_decode_failed Background invoice zionAddress zlb
                      l1 e Hdec)).
  - intros from to amount err.
    rewrite (handlePayInvoice_bound (bound _) _ zlb eq_refl). cbn.
    pose proof (PayInvoice_runs Background invoice zionAddress zlb) as Hrun.
    destruct Hrun; intros Hin;
      try (cbn in Hin; intuition discriminate).
    apply in_app_or in Hin as [Hin | Hin].
    + cbn in Hin; intuition discriminate.
    + unfold ledger_leg_events in Hin.
      apply in_app_or in Hin as [Hin | Hin].
      * apply in_map_iff in Hin as (line & Hline & _). discriminate.
      * apply in_app_or in Hin as [Hin | Hin].
        -- cbn in Hin. destruct Hin as [Heq | []].
           injection Heq as _ _ <- _. reflexivity.
        -- destruct err0; cbn in Hin; intuition discriminate.
Qed.

End HandlerFacts.

(** C4 as stated fails: a request that supplies the amount 5 for an
    invoice asking for 1000 is answered with success, after the
    Lightning payment and a ledger transfer of 1000. *)
Lemma handlePayInvoice_amount_mismatch_accepted :
  let run :=
    handlePayInvoice
      (bound {| Invoice := "lnbc10u1invoice"; ZionAddress := "Z1account";
                Amount := 5 |})
      (source_bridge (paying_node 1000)) in
  gin.code (result_of run) = http.StatusOK
  /\ decoded_amount (events_of run) = Some 1000
  /\ existsb is_lightning_paid (events_of run) = true
  /\ In (EvSendTransaction "Z1account" pool 1000 None) (events_of run).
Proof.
  cbv zeta. repeat split. cbn. tauto.
Qed.

Lemma handlePayInvoice_ignores_amount_witness :
  handlePayInvoice
    (bound {| Invoice := "not an invoice"; ZionAddress := "Z1account";
              Amount := 5 |})
    (source_bridge deaf_node)
  = ({| gin.code := http.StatusInternalServerError;
        gin.obj :=
          [("error",
            "cannot decode invoice: rpc error: code = Unknown desc = invalid index of 1")] |},
     source_bridge deaf_node,
     [EvDecodePayReq (decodeReq "not an invoice")
        (Err "rpc error: code = Unknown desc = invalid index of 1")]).
Proof.
  refine (proj1 (proj2 (handlePayInvoice_ignores_amount
                          (L:=StubNode) (T:=ZionRPCClient)
                          "not an invoice" "Z1account" 5 1000
                          (source_bridge deaf_node)))
            deaf_node "rpc error: code = Unknown desc = invalid index of 1" _).
  reflexivity.
Defined.

(** On the bridge of the source the second call sends the request
    again; on a node that refuses an invoice it has settled the request
    is sent again all the same. *)
Lemma PayInvoice_sends_at_most_once_witness :
  filter is_lightning_send
    (events_of (PayInvoice_twice Background "lnbc10u1invoice" "Z1account"
                  (source_bridge (paying_node 1000))))
  = (filter is_lightning_send
       (events_of (PayInvoice Background "lnbc10u1invoice" "Z1account"
                     (source_bridge (paying_node 1000))))
     ++ [EvSendPaymentSync (sendReq "lnbc10u1invoice")
           (snd (SendPaymentSync (paying_node 1000) Background
                   (sendReq "lnbc10u1invoice")))])%list
  /\ filter is_lightning_send
       (events_of (PayInvoice Background "lnbc10u1invoice" "Z1account"
                     {| lndClient := {| settled := ["lnbc10u1invoice"] |};
                        zionRPC := NewZionRPCClient (ZionRPCURL default_config);
                        config := default_config |}))
     = [EvSendPaymentSync (sendReq "lnbc10u1invoice")
          (snd (SendPaymentSync {| settled := ["lnbc10u1invoice"] |}
                  Background (sendReq "lnbc10u1invoice")))].
Proof.
  split.
  - refine (proj2 (proj2 (proj2 (proj2 (proj2
              (PayInvoice_sends_at_most_once
                 (L:=StubNode) (T:=ZionRPCClient)
                 Background "lnbc10u1invoice" "Z1account"
                 (source_bridge (paying_node 1000)))))))
              (paying_node 1000) {| lnrpc.NumSatoshis := 1000 |}
              (NewZionRPCClient (ZionRPCURL default_config)) 1000000 _ _ _).
    + reflexivity.
    + reflexivity.
    + vm_compute. discriminate.
  - refine (proj1 (proj2 (proj2 (proj2
              (PayInvoice_sends_at_most_once
                 (L:=DedupNode) (T:=ZionRPCClient)
                 Background "lnbc10u1invoice" "Z1account"
                 {| lndClient := {| settled := ["lnbc10u1invoice"] |};
                    zionRPC := NewZionRPCClient (ZionRPCURL default_config);
                    config := default_config |}))))
              {| settled := ["lnbc10u1invoice"] |}
              {| lnrpc.NumSatoshis := 1000 |}
              (NewZionRPCClient (ZionRPCURL default_config)) 1000000 _ _ _).
    + reflexivity.
    + reflexivity.
    + vm_compute. discriminate.
Defined.

(** * What the caller sees of a failure *)

(** C8 as stated fails: when the Lightning node cannot be reached, the
    answer is 500 with the one field [error], no kind and no settlement
    id, and the caller reads the error of the transport in it, after the
    prefix that [PayInvoice] puts before it. *)
Lemma handlePayInvoice_exposes_transport_error :
  let run :=
    handlePayInvoice
      (bound {| Invoice := "lnbc10u1invoice"; ZionAddress := "Z1account";
                Amount := 1000 |})
      (source_bridge unreachable_node) in
  result_of run
  = {| gin.code := http.StatusInternalServerError;
       gin.obj :=
         [("error",
           "lightning payment failed: rpc error: code = Unavailable desc = connection refused")] |}
  /\ gin.written (result_of run)
     = [("error",
         "lightning payment failed: rpc error: code = Unavailable desc = connection refused")]
  /\ transport_error
       "rpc error: code = Unavailable desc = connection refused"
       (events_of run)
  /\ exposes "rpc error: code = Unavailable desc = connection refused"
       (result_of run).
Proof.
  cbv zeta. split; [reflexivity | split; [reflexivity | split]].
  - right. right. exists (sendReq "lnbc10u1invoice"). cbn. tauto.
  - exists "error",
      "lightning payment failed: rpc error: code = Unavailable desc = connection refused".
    split; [cbn; tauto |].
    exists "lightning payment failed: ", "". reflexivity.
Qed.

(** The prefixes of [PayInvoice] are ASCII: the encoder leaves them
    alone and goes on with the text behind them. *)
Lemma encoding_json_string_prefixes (e : string) :
  encoding_json.string ("cannot decode invoice: " ++ e)
  = "cannot decode invoice: " ++ encoding_json.string e
  /\ encoding_json.string ("cannot get ZION balance: " ++ e)
     = "cannot get ZION balance: " ++ encoding_json.string e
  /\ encoding_json.string ("lightning payment failed: " ++ e)
     = "lightning payment failed: " ++ encoding_json.string e
  /\ encoding_json.string ("payment error: " ++ e)
     = "payment error: " ++ encoding_json.string e.
Proof. repeat split. Qed.

Section FailureResponse.

Context {L T : Type} `{LightningClient L} `{LedgerClient T}.

Variable c : gin.Context.
Variable zlb : ZionLightningBridge L T.

(** The answer to a request that is bound and whose [PayInvoice]
    returned the error [msg]. *)
Lemma handlePayInvoice_error req msg :
  gin.ShouldBindJSON c = Ok req ->
  result_of (PayInvoice Background (Invoice req) (ZionAddress req) zlb)
  = Some msg ->
  result_of (handlePayInvoice c zlb)
  = {| gin.code := http.StatusInternalServerError;
       gin.obj := [("error", msg)] |}.
Proof.
  intros Hbind Hres.
  now rewrite (handlePayInvoice_bound c req zlb Hbind), result_of_triple, Hres.
Qed.

(** C8, amended: every failure of the pay route is answered with a
    JSON object that has the single field [error] and nothing else, no
    kind and no settlement id: status 400 with the message of the
    binding error, status 500 with the message of the error
    [PayInvoice] returned, and only a call without error is answered
    200.  The caller reads the message as the encoder writes it: bytes
    that are not UTF-8 are replaced by U+FFFD and a message that is
    valid UTF-8 is written as it is.  An error that the node or the
    ledger client answered with is in the message behind a fixed
    prefix. *)
Theorem handlePayInvoice_failure_response :
  (forall msg,
     gin.ShouldBindJSON c = Err msg ->
     handlePayInvoice c zlb
     = ({| gin.code := http.StatusBadRequest; gin.obj := [("error", msg)] |},
        zlb, [])
     /\ gin.written (result_of (handlePayInvoice c zlb))
        = [("error", encoding_json.string msg)])
  /\ (forall req msg,
        gin.ShouldBindJSON c = Ok req ->
        result_of (PayInvoice Background (Invoice req) (ZionAddress req) zlb)
        = Some msg ->
        result_of (handlePayInvoice c zlb)
        = {| gin.code := http.StatusInternalServerError;
             gin.obj := [("error", msg)] |}
        /\ gin.written (result_of (handlePayInvoice c zlb))
           = [("error", encoding_json.string msg)])
  /\ (forall req,
        gin.ShouldBindJSON c = Ok req ->
        result_of (PayInvoice Background (Invoice req) (ZionAddress req) zlb)
        = None ->
        result_of (handlePayInvoice c zlb)
        = {| gin.code := http.StatusOK;
             gin.obj :=
               [("status", "success");
                ("message", "Lightning payment completed");
                ("mantra", "⚡ Jai Ram Ram Ram Sita Ram Ram Ram Hanuman! ⚡")] |})
  /\ (forall req l1 e,
        gin.ShouldBindJSON c = Ok req ->
        DecodePayReq (lndClient zlb) Background (decodeReq (Invoice req))
        = (l1, Err e) ->
        gin.code (result_of (handlePayInvoice c zlb))
        = http.StatusInternalServerError
        /\ gin.written (result_of (handlePayInvoice c zlb))
           = [("error", "cannot decode invoice: " ++ encoding_json.string e)])
  /\ (forall req l1 payReq t1 balance e,
        gin.ShouldBindJSON c = Ok req ->
        DecodePayReq (lndClient zlb) Background (decodeReq (Invoice req))
        = (l1, Ok payReq) ->
        GetBalance (zionRPC zlb) (ZionAddress req) = (t1, (balance, Some e)) ->
        gin.code (result_of (handlePayInvoice c zlb))
        = http.StatusInternalServerError
        /\ gin.written (result_of (handlePayInvoice c zlb))
           = [("error", "cannot get ZION balance: " ++ encoding_json.string e)])
  /\ (forall req l1 payReq t1 balance l2 e,
        gin.ShouldBindJSON c = Ok req ->
        DecodePayReq (lndClient zlb) Background (decodeReq (Invoice req))
        = (l1, Ok payReq) ->
        GetBalance (zionRPC zlb) (ZionAddress req) = (t1, (balance, None)) ->
        uint64 (lnrpc.NumSatoshis payReq) <= balance ->
        SendPaymentSync l1 Background (sendReq (Invoice req)) = (l2, Err e) ->
        gin.code (result_of (handlePayInvoice c zlb))
        = http.StatusInternalServerError
        /\ gin.written (result_of (handlePayInvoice c zlb))
           = [("error",
               "lightning payment failed: " ++ encoding_json.string e)])
  /\ (forall req l1 payReq t1 balance l2 payment,
        gin.ShouldBindJSON c = Ok req ->
        DecodePayReq (lndClient zlb) Background (decodeReq (Invoice req))
        = (l1, Ok payReq) ->
        GetBalance (zionRPC zlb) (ZionAddress req) = (t1, (balance, None)) ->
        uint64 (lnrpc.NumSatoshis payReq) <= balance ->
        SendPaymentSync l1 Background (sendReq (Invoice req))
        = (l2, Ok payment) ->
        lnrpc.PaymentError payment <> "" ->
        gin.code (result_of (handlePayInvoice c zlb))
        = http.StatusInternalServerError
        /\ gin.written (result_of (handlePayInvoice c zlb))
           = [("error",
               "payment error: "
               ++ encoding_json.string (lnrpc.PaymentError payment))])
  /\ (forall msg,
        utf8.ValidString msg = true -> encoding_json.string msg = msg).
Proof.
  split; [| split; [| split; [| split; [| split; [| split; [| split]]]]]].
  - intros msg Hbind.
    now rewrite (handlePayInvoice_unbound c msg zlb Hbind).
  - intros req msg Hbind Hres.
    now rewrite (handlePayInvoice_error req msg Hbind Hres).
  - intros req Hbind Hres.
    now rewrite (handlePayInvoice_bound c req zlb Hbind), result_of_triple,
      Hres.
  - intros req l1 e Hbind Hdec.
    rewrite (handlePayInvoice_error req _ Hbind
               (f_equal result_of
                  (PayInvoice_run_eq Background (Invoice req) (ZionAddress req)
                     zlb _ _ _
                     (run_decode_failed Background (Invoice req)
                        (ZionAddress req) zlb l1 e Hdec)))).
    split; [reflexivity |].
    unfold gin.written. cbn [gin.obj map fold_right gin.place_field fst snd].
    now rewrite (proj1 (encoding_json_string_prefixes e)).
  - intros req l1 payReq t1 balance e Hbind Hdec Hbal.
    rewrite (handlePayInvoice_error req _ Hbind
               (f_equal result_of
                  (PayInvoice_run_eq Background (Invoice req) (ZionAddress req)
                     zlb _ _ _
                     (run_balance_failed Background (Invoice req)
                        (ZionAddress req) zlb l1 payReq t1 balance e
                        Hdec Hbal)))).
    split; [reflexivity |].
    unfold gin.written. cbn [gin.obj map fold_right gin.place_field fst snd].
    now rewrite (proj1 (proj2 (encoding_json_string_prefixes e))).
  - intros req l1 payReq t1 balance l2 e Hbind Hdec Hbal Hge Hsend.
    rewrite (handlePayInvoice_error req _ Hbind
               (f_equal result_of
                  (PayInvoice_run_eq Background (Invoice req) (ZionAddress req)
                     zlb _ _ _
                     (run_send_failed Background (Invoice req)
                        (ZionAddress req) zlb l1 payReq t1 balance l2 e
                        Hdec Hbal Hge Hsend)))).
    split; [reflexivity |].
    unfold gin.written. cbn [gin.obj map fold_right gin.place_field fst snd].
    now rewrite (proj1 (proj2 (proj2 (encoding_json_string_prefixes e)))).
  - intros req l1 payReq t1 balance l2 payment Hbind Hdec Hbal Hge Hsend Hpe.
    rewrite (handlePayInvoice_error req _ Hbind
               (f_equal result_of
                  (PayInvoice_run_eq Background (Invoice req) (ZionAddress req)
                     zlb _ _ _
                     (run_payment_error Background (Invoice req)
                        (ZionAddress req) zlb l1 payReq t1 balance l2 payment
                        Hdec Hbal Hge Hsend Hpe)))).
    split; [reflexivity |].
    unfold gin.written. cbn [gin.obj map fold_right gin.place_field fst snd].
    now rewrite (proj2 (proj2 (proj2 (encoding_json_string_prefixes _)))).
  - exact encoding_json_string_valid.
Qed.

End FailureResponse.

(** An unreachable node: the caller reads the error of the transport
    behind the prefix. *)
Lemma handlePayInvoice_failure_response_witness :
  gin.code
    (result_of
       (handlePayInvoice
          (bound {| Invoice := "lnbc10u1invoice";
                    ZionAddress := "Z1account"; Amount := 1000 |})
          (source_bridge unreachable_node)))
  = http.StatusInternalServerError
  /\ gin.written
       (result_of
          (handlePayInvoice
             (bound {| Invoice := "lnbc10u1invoice";
                       ZionAddress := "Z1account"; Amount := 1000 |})
             (source_bridge unreachable_node)))
     = [("error",
         "lightning payment failed: "
         ++ encoding_json.string
              "rpc error: code = Unavailable desc = connection refused")].
Proof.
  refine (proj1 (proj2 (proj2 (proj2 (proj2 (proj2
            (handlePayInvoice_failure_response
               (L:=StubNode) (T:=ZionRPCClient)
               (bound {| Invoice := "lnbc10u1invoice";
                         ZionAddress := "Z1account"; Amount := 1000 |})
               (source_bridge unreachable_node)))))))
            {| Invoice := "lnbc10u1invoice"; ZionAddress := "Z1account";
               Amount := 1000 |}
            unreachable_node {| lnrpc.NumSatoshis := 1000 |}
            (NewZionRPCClient (ZionRPCURL default_config)) 1000000
            unreachable_node
            "rpc error: code = Unavailable desc = connection refused"
            _ _ _ _ _).
  - reflexivity.
  - reflexivity.
  - reflexivity.
  - vm_compute. discriminate.
  - reflexivity.
Defined.

(** An error of the node with a byte that is not UTF-8: the caller
    reads U+FFFD in its place. *)
Example handlePayInvoice_invalid_utf8 :
  gin.written
    (result_of
       (handlePayInvoice
          (bound {| Invoice := "not an invoice"; ZionAddress := "Z1account";
                    Amount := 5 |})
          (source_bridge
             {| decodes := fun _ =>
                  Err ("bad " ++ String (ascii_of_N 255) " byte");
                pays := fun _ => Ok paid_response |})))
  = [("error", "cannot decode invoice: bad " ++ utf8.replacement " byte")].
Proof. reflexivity. Qed.

(** The answer to a payment: the encoder writes the fields by name. *)
Example handlePayInvoice_success_written :
  gin.written
    (result_of
       (handlePayInvoice
          (bound {| Invoice := "lnbc10u1invoice"; ZionAddress := "Z1account";
                    Amount := 1000 |})
          (source_bridge (paying_node 1000))))
  = [("mantra", "⚡ Jai Ram Ram Ram Sita Ram Ram Ram Hanuman! ⚡");
     ("message", "Lightning payment completed");
     ("status", "success")].
Proof. reflexivity. Qed.

(** * Configuration *)

Lemma getEnv_nonempty env key defaultValue :
  defaultValue <> "" -> getEnv env key defaultValue <> "".
Proof.
  intros Hd. unfold getEnv.
  destruct (String.eqb_spec (env key) "") as [He | He]; cbn; assumption.
Qed.

Lemma getEnv_default_iff env key defaultValue :
  getEnv env key defaultValue = defaultValue
  <-> env key = "" \/ env key = defaultValue.
Proof.
  unfold getEnv.
  destruct (String.eqb_spec (env key) "") as [He | He]; cbn.
  - split; [now left | reflexivity].
  - split; [now right | now intros [Hempty | Hsame]].
Qed.

(** X1: whatever the environment holds, no field of the configuration
    [LoadConfig] returns is empty: a variable that is unset or set to
    the empty string gives way to the default. *)
Theorem LoadConfig_fields_nonempty (env : Environ) :
  ZionRPCURL (LoadConfig env) <> ""
  /\ LNDHost (LoadConfig env) <> ""
  /\ LNDTLSCert (LoadConfig env) <> ""
  /\ LNDMacaroon (LoadConfig env) <> ""
  /\ BridgePort (LoadConfig env) <> ""
  /\ LogLevel (LoadConfig env) <> "".
Proof.
  repeat split; cbn; apply getEnv_nonempty; discriminate.
Qed.

(** X2: [LoadConfig] returns the default configuration exactly when each
    of its six variables is unset, empty, or set to its default. *)
Theorem LoadConfig_default_iff (env : Environ) :
  LoadConfig env = default_config
  <-> (env "ZION_RPC_URL" = "" \/ env "ZION_RPC_URL" = "http://localhost:18089")
      /\ (env "LND_HOST" = "" \/ env "LND_HOST" = "localhost:10009")
      /\ (env "LND_TLS_CERT_PATH" = ""
          \/ env "LND_TLS_CERT_PATH" = "/lnd-certs/tls.cert")
      /\ (env "LND_ADMIN_MACAROON_PATH" = ""
          \/ env "LND_ADMIN_MACAROON_PATH" = "/lnd-certs/admin.macaroon")
      /\ (env "BRIDGE_PORT" = "" \/ env "BRIDGE_PORT" = "8090")
      /\ (env "LOG_LEVEL" = "" \/ env "LOG_LEVEL" = "info").
Proof.
  rewrite <- !getEnv_default_iff. unfold LoadConfig, default_config.
  split.
  - intros Heq. injection Heq as H1 H2 H3 H4 H5 H6. now repeat split.
  - intros (H1 & H2 & H3 & H4 & H5 & H6).
    now rewrite H1, H2, H3, H4, H5, H6.
Qed.

(** * Channels and node information *)

Lemma fold_append_channels (chs : list lnrpc_msg.Channel) (s : slice.t Channel) :
  fold_left (fun channels ch => slice.append channels (channel_of ch)) chs s
  = match chs with
    | [] => s
    | _ => Some (slice.elems s ++ map channel_of chs)%list
    end.
Proof.
  revert s. induction chs as [| ch chs IH]; intros s; [reflexivity |].
  cbn [fold_left]. rewrite IH.
  destruct chs as [| ch' chs].
  - destruct s; reflexivity.
  - destruct s as [l | ]; cbn; [now rewrite <- app_assoc | reflexivity].
Qed.

Lemma fold_capacity (chs : list Channel) (total : Z) :
  uint64 total = total ->
  fold_left (fun total ch => uint64 (total + Capacity ch)) chs total
  = uint64 (total + fold_right Z.add 0 (map Capacity chs)).
Proof.
  revert total. induction chs as [| ch chs IH]; intros total Ht; cbn.
  - now rewrite Z.add_0_r.
  - rewrite IH.
    + unfold uint64. rewrite Zplus_mod_idemp_l. f_equal. lia.
    + unfold uint64. now rewrite Zmod_mod.
Qed.

Lemma map_Capacity_channel_of chs :
  map Capacity (map channel_of chs)
  = map (fun ch => uint64 (lnrpc_msg.Capacity ch)) chs.
Proof. rewrite map_map. reflexivity. Qed.

Section NodeFacts.

Context {L T : Type} `{LightningNodeClient L}.

Lemma GetChannels_ok ctx (zlb : ZionLightningBridge L T) l1 resp :
  ListChannels (lndClient zlb) ctx = (l1, Ok resp) ->
  GetChannels ctx zlb
  = (Ok (channels_slice (lnrpc_msg.Channels resp)),
     node_bridge zlb l1,
     [CallListChannels (Ok resp)]).
Proof.
  intros Hlist. unfold GetChannels, qbind, lnd_ListChannels.
  rewrite Hlist. cbn. rewrite fold_append_channels.
  unfold channels_slice, node_bridge.
  destruct (lnrpc_msg.Channels resp); reflexivity.
Qed.

Lemma GetChannels_err ctx (zlb : ZionLightningBridge L T) l1 e :
  ListChannels (lndClient zlb) ctx = (l1, Err e) ->
  GetChannels ctx zlb
  = (Err e, node_bridge zlb l1, [CallListChannels (Err e)]).
Proof.
  intros Hlist. unfold GetChannels, qbind, lnd_ListChannels.
  now rewrite Hlist.
Qed.

(** X3: when the node answers [ListChannels], [GetChannels] returns one
    [Channel] for each channel of the node, in the order of the node:
    the id in decimal, the peer, the three amounts read as [uint64],
    the activity.  For a node without channels the slice returned is
    nil.  The node is asked once. *)
Theorem GetChannels_converts ctx (zlb : ZionLightningBridge L T) l1 resp :
  ListChannels (lndClient zlb) ctx = (l1, Ok resp) ->
  exists channels,
    qresult (GetChannels ctx zlb) = Ok channels
    /\ slice.elems channels = map channel_of (lnrpc_msg.Channels resp)
    /\ (channels = None <-> lnrpc_msg.Channels resp = [])
    /\ List.length (slice.elems channels) = List.length (lnrpc_msg.Channels resp)
    /\ qcalls (GetChannels ctx zlb) = [CallListChannels (Ok resp)].
Proof.
  intros Hlist. rewrite (GetChannels_ok ctx zlb l1 resp Hlist).
  exists (channels_slice (lnrpc_msg.Channels resp)).
  unfold channels_slice.
  destruct (lnrpc_msg.Channels resp) as [| ch chs] eqn:Hchs.
  - repeat split; intros; reflexivity.
  - repeat split; try reflexivity; try discriminate.
    cbn. now rewrite length_map.
Qed.

End NodeFacts.

Lemma GetChannels_converts_witness :
  exists channels,
    qresult (GetChannels Background
               (info_bridge
                  (example_node
                     (Ok {| lnrpc_msg.Channels :=
                              [example_channel 7 50000;
                               example_channel 8 70000] |}))))
    = Ok channels
    /\ slice.elems channels
       = map channel_of [example_channel 7 50000; example_channel 8 70000]
    /\ (channels = None
        <-> [example_channel 7 50000; example_channel 8 70000] = [])
    /\ List.length (slice.elems channels) = 2%nat
    /\ qcalls (GetChannels Background
                 (info_bridge
                    (example_node
                       (Ok {| lnrpc_msg.Channels :=
                                [example_channel 7 50000;
                                 example_channel 8 70000] |}))))
       = [CallListChannels
            (Ok {| lnrpc_msg.Channels :=
                     [example_channel 7 50000; example_channel 8 70000] |})].
Proof.
  apply (GetChannels_converts (L:=InfoNode) (T:=ZionRPCClient) Background
           (info_bridge
              (example_node
                 (Ok {| lnrpc_msg.Channels :=
                          [example_channel 7 50000;
                           example_channel 8 70000] |})))
           (example_node
              (Ok {| lnrpc_msg.Channels :=
                       [example_channel 7 50000;
                        example_channel 8 70000] |}))
           {| lnrpc_msg.Channels :=
                [example_channel 7 50000; example_channel 8 70000] |}).
  reflexivity.
Defined.

Lemma elems_channels_slice chs :
  slice.elems (channels_slice chs) = map channel_of chs.
Proof. destruct chs; reflexivity. Qed.

Lemma uint64_range x : is_uint64 (uint64 x).
Proof.
  unfold is_uint64, uint64. apply Z.mod_pos_bound. reflexivity.
Qed.

Section NodeInfoFacts.

Context {L T : Type} `{LightningNodeClient L}.

Variable ctx : context_Context.
Variable zlb : ZionLightningBridge L T.

Lemma GetNodeInfo_info_err l1 e :
  GetInfo (lndClient zlb) ctx = (l1, Err e) ->
  GetNodeInfo ctx zlb = (Err e, node_bridge zlb l1, [CallGetInfo (Err e)]).
Proof.
  intros Hinfo. unfold GetNodeInfo, qbind, lnd_GetInfo. now rewrite Hinfo.
Qed.

Lemma GetNodeInfo_ok l1 info l2 resp :
  GetInfo (lndClient zlb) ctx = (l1, Ok info) ->
  ListChannels l1 ctx = (l2, Ok resp) ->
  GetNodeInfo ctx zlb
  = (Ok {| nodeinfo.PubKey := lnrpc_msg.IdentityPubkey info;
           nodeinfo.Alias := lnrpc_msg.Alias info;
           nodeinfo.NumChannels := lnrpc_msg.NumActiveChannels info;
           nodeinfo.Capacity :=
             uint64 (capacity_sum (lnrpc_msg.Channels resp));
           nodeinfo.Synced := lnrpc_msg.SyncedToChain info;
           nodeinfo.Testnet := lnrpc_msg.Testnet info;
           nodeinfo.Channels := channels_slice (lnrpc_msg.Channels resp) |},
     node_bridge zlb l2,
     [CallGetInfo (Ok info); CallListChannels (Ok resp)]).
Proof.
  intros Hinfo Hlist. unfold GetNodeInfo, qbind at 1, lnd_GetInfo.
  rewrite Hinfo. cbv beta iota.
  unfold qbind at 1.
  rewrite (GetChannels_ok ctx
             {| lndClient := l1; zionRPC := zionRPC zlb;
                config := config zlb |} l2 resp Hlist).
  cbn. rewrite elems_channels_slice, fold_capacity by reflexivity.
  rewrite map_Capacity_channel_of. reflexivity.
Qed.

Lemma GetNodeInfo_channels_err l1 info l2 e :
  GetInfo (lndClient zlb) ctx = (l1, Ok info) ->
  ListChannels l1 ctx = (l2, Err e) ->
  GetNodeInfo ctx zlb
  = (Ok {| nodeinfo.PubKey := lnrpc_msg.IdentityPubkey info;
           nodeinfo.Alias := lnrpc_msg.Alias info;
           nodeinfo.NumChannels := lnrpc_msg.NumActiveChannels info;
           nodeinfo.Capacity := 0;
           nodeinfo.Synced := lnrpc_msg.SyncedToChain info;
           nodeinfo.Testnet := lnrpc_msg.Testnet info;
           nodeinfo.Channels := Some [] |},
     node_bridge zlb l2,
     [CallGetInfo (Ok info); CallListChannels (Err e);
      CallLog ("Warning: Could not get channels: " ++ e)]).
Proof.
  intros Hinfo Hlist. unfold GetNodeInfo, qbind at 1, lnd_GetInfo.
  rewrite Hinfo. cbv beta iota.
  unfold qbind at 1.
  rewrite (GetChannels_err ctx
             {| lndClient := l1; zionRPC := zionRPC zlb;
                config := config zlb |} l2 e Hlist).
  reflexivity.
Qed.

(** X4: the capacity [GetNodeInfo] reports is the sum of the capacities
    of the channels the node lists, each read as a [uint64], modulo
    2^64: a sum that passes 2^64 wraps around and no error is raised. *)
Theorem GetNodeInfo_capacity l1 info l2 resp :
  GetInfo (lndClient zlb) ctx = (l1, Ok info) ->
  ListChannels l1 ctx = (l2, Ok resp) ->
  exists n,
    qresult (GetNodeInfo ctx zlb) = Ok n
    /\ nodeinfo.Capacity n
       = capacity_sum (lnrpc_msg.Channels resp) mod 2 ^ 64
    /\ is_uint64 (nodeinfo.Capacity n)
    /\ slice.elems (nodeinfo.Channels n)
       = map channel_of (lnrpc_msg.Channels resp).
Proof.
  intros Hinfo Hlist.
  rewrite (GetNodeInfo_ok l1 info l2 resp Hinfo Hlist).
  eexists. split; [reflexivity |]. cbn. repeat split.
  - apply (uint64_range (capacity_sum (lnrpc_msg.Channels resp))).
  - apply (uint64_range (capacity_sum (lnrpc_msg.Channels resp))).
  - apply elems_channels_slice.
Qed.

(** X5: [GetNodeInfo] fails exactly when [GetInfo] fails, and with the
    error of [GetInfo] as it is; the channels are then never asked
    for.  A failure of [ListChannels] is never returned. *)
Theorem GetNodeInfo_error_iff e :
  (qresult (GetNodeInfo ctx zlb) = Err e
   <-> snd (GetInfo (lndClient zlb) ctx) = Err e)
  /\ (qresult (GetNodeInfo ctx zlb) = Err e ->
      qcalls (GetNodeInfo ctx zlb) = [CallGetInfo (Err e)]).
Proof.
  destruct (GetInfo (lndClient zlb) ctx) as [l1 [info | e1]] eqn:Hinfo.
  - destruct (ListChannels l1 ctx) as [l2 [resp | e2]] eqn:Hlist.
    + rewrite (GetNodeInfo_ok l1 info l2 resp Hinfo Hlist). cbn.
      split; [split |]; discriminate.
    + rewrite (GetNodeInfo_channels_err l1 info l2 e2 Hinfo Hlist). cbn.
      split; [split |]; discriminate.
  - rewrite (GetNodeInfo_info_err l1 e1 Hinfo). unfold qresult, qcalls. cbn.
    split; [split; intros [= ->]; reflexivity |]. now intros [= ->].
Qed.

(** X6: when [GetInfo] answers and [ListChannels] fails, [GetNodeInfo]
    succeeds all the same: it logs a warning with the error and reports
    an empty list of channels (not nil) and a capacity of 0, while the
    number of channels is still the count of active channels that
    [GetInfo] gave. *)
Theorem GetNodeInfo_channels_error_swallowed l1 info l2 e :
  GetInfo (lndClient zlb) ctx = (l1, Ok info) ->
  ListChannels l1 ctx = (l2, Err e) ->
  exists n,
    qresult (GetNodeInfo ctx zlb) = Ok n
    /\ nodeinfo.Channels n = Some []
    /\ nodeinfo.Capacity n = 0
    /\ nodeinfo.NumChannels n = lnrpc_msg.NumActiveChannels info
    /\ qcalls (GetNodeInfo ctx zlb)
       = [CallGetInfo (Ok info); CallListChannels (Err e);
          CallLog ("Warning: Could not get channels: " ++ e)].
Proof.
  intros Hinfo Hlist.
  rewrite (GetNodeInfo_channels_err l1 info l2 e Hinfo Hlist).
  eexists. split; [reflexivity |]. now repeat split.
Qed.

End NodeInfoFacts.

(** Three channels of capacity 2^63 - 1 each: the sum wraps around. *)
Lemma GetNodeInfo_capacity_witness :
  exists n,
    qresult (GetNodeInfo Background
               (info_bridge
                  (example_node
                     (Ok {| lnrpc_msg.Channels :=
                              [example_channel 7 (2 ^ 63 - 1);
                               example_channel 8 (2 ^ 63 - 1);
                               example_channel 9 (2 ^ 63 - 1)] |}))))
    = Ok n
    /\ nodeinfo.Capacity n = 2 ^ 63 - 3
    /\ is_uint64 (nodeinfo.Capacity n)
    /\ slice.elems (nodeinfo.Channels n)
       = map channel_of
           [example_channel 7 (2 ^ 63 - 1); example_channel 8 (2 ^ 63 - 1);
            example_channel 9 (2 ^ 63 - 1)].
Proof.
  apply (GetNodeInfo_capacity (L:=InfoNode) (T:=ZionRPCClient) Background
           (info_bridge
              (example_node
                 (Ok {| lnrpc_msg.Channels :=
                          [example_channel 7 (2 ^ 63 - 1);
                           example_channel 8 (2 ^ 63 - 1);
                           example_channel 9 (2 ^ 63 - 1)] |})))
           (example_node
              (Ok {| lnrpc_msg.Channels :=
                       [example_channel 7 (2 ^ 63 - 1);
                        example_channel 8 (2 ^ 63 - 1);
                        example_channel 9 (2 ^ 63 - 1)] |}))
           example_info
           (example_node
              (Ok {| lnrpc_msg.Channels :=
                       [example_channel 7 (2 ^ 63 - 1);
                        example_channel 8 (2 ^ 63 - 1);
                        example_channel 9 (2 ^ 63 - 1)] |}))
           {| lnrpc_msg.Channels :=
                [example_channel 7 (2 ^ 63 - 1);
                 example_channel 8 (2 ^ 63 - 1);
                 example_channel 9 (2 ^ 63 - 1)] |});
    reflexivity.
Defined.

Lemma GetNodeInfo_error_iff_witness :
  qcalls (GetNodeInfo Background
            (info_bridge
               {| info_answer := Err "rpc error: code = Unavailable";
                  channels_answer := Ok {| lnrpc_msg.Channels := [] |};
                  invoice_answer := fun _ => Err "unused" |}))
  = [CallGetInfo (Err "rpc error: code = Unavailable")].
Proof.
  apply (proj2 (GetNodeInfo_error_iff (L:=InfoNode) (T:=ZionRPCClient)
                  Background
                  (info_bridge
                     {| info_answer := Err "rpc error: code = Unavailable";
                        channels_answer := Ok {| lnrpc_msg.Channels := [] |};
                        invoice_answer := fun _ => Err "unused" |})
                  "rpc error: code = Unavailable")).
  reflexivity.
Defined.

Lemma GetNodeInfo_channels_error_swallowed_witness :
  exists n,
    qresult (GetNodeInfo Background
               (info_bridge (example_node (Err "rpc error: code = Unknown"))))
    = Ok n
    /\ nodeinfo.Channels n = Some []
    /\ nodeinfo.Capacity n = 0
    /\ nodeinfo.NumChannels n = 2
    /\ qcalls (GetNodeInfo Background
                 (info_bridge
                    (example_node (Err "rpc error: code = Unknown"))))
       = [CallGetInfo (Ok example_info);
          CallListChannels (Err "rpc error: code = Unknown");
          CallLog "Warning: Could not get channels: rpc error: code = Unknown"].
Proof.
  apply (GetNodeInfo_channels_error_swallowed
           (L:=InfoNode) (T:=ZionRPCClient) Background
           (info_bridge (example_node (Err "rpc error: code = Unknown")))
           (example_node (Err "rpc error: code = Unknown")) example_info
           (example_node (Err "rpc error: code = Unknown"))
           "rpc error: code = Unknown");
    reflexivity.
Defined.

(** * Invoices *)

Lemma uint64_int64 amount : is_uint64 amount -> uint64 (int64 amount) = amount.
Proof.
  unfold is_uint64, uint64, int64. intros Ha.
  rewrite Zminus_mod_idemp_l.
  replace (amount + 2 ^ 63 - 2 ^ 63) with amount by lia.
  now apply Z.mod_small.
Qed.

Lemma int64_small amount : 0 <= amount < 2 ^ 63 -> int64 amount = amount.
Proof.
  unfold int64. intros Ha. rewrite Z.mod_small by lia. lia.
Qed.

Lemma int64_large amount :
  2 ^ 63 <= amount < 2 ^ 64 -> int64 amount = amount - 2 ^ 64.
Proof.
  unfold int64. intros Ha.
  replace (amount + 2 ^ 63) with (amount - 2 ^ 63 + 1 * 2 ^ 64) by lia.
  rewrite Z_mod_plus_full, Z.mod_small by lia. lia.
Qed.

Lemma hex_length (src : list Byte.byte) :
  String.length (hex.EncodeToString src) = (2 * List.length src)%nat.
Proof.
  induction src as [| b src IH]; cbn [hex.EncodeToString String.length].
  - reflexivity.
  - rewrite IH. cbn. lia.
Qed.

Lemma unhex_byte (b : Byte.byte) :
  unhex.byte_of (hex.digit (N.shiftr (Byte.to_N b) 4))
    (hex.digit (N.land (Byte.to_N b) 15)) = Some b.
Proof. destruct b; reflexivity. Qed.

(** Decoding undoes encoding. *)
Lemma unhex_hex (src : list Byte.byte) :
  unhex.DecodeString (hex.EncodeToString src) = Some src.
Proof.
  induction src as [| b src IH]; [reflexivity |].
  cbn [hex.EncodeToString unhex.DecodeString].
  now rewrite unhex_byte, IH.
Qed.

Lemma hex_injective (a b : list Byte.byte) :
  hex.EncodeToString a = hex.EncodeToString b -> a = b.
Proof.
  intros Heq. apply (f_equal unhex.DecodeString) in Heq.
  rewrite !unhex_hex in Heq. now injection Heq.
Qed.

Section InvoiceFacts.

Context {L T : Type} `{LightningNodeClient L}.

Lemma CreateInvoice_eq now ctx amount memo (zlb : ZionLightningBridge L T) :
  CreateInvoice now ctx amount memo zlb
  = (match snd (AddInvoice (lndClient zlb) ctx
                  {| lnrpc_msg.Value := int64 amount;
                     lnrpc_msg.Memo := memo |}) with
     | Err err => Err err
     | Ok invoice =>
         Ok {| payment.Invoice := lnrpc_msg.PaymentRequest invoice;
               payment.Amount := amount;
               payment.ZionTxHash := "";
               payment.Status := "pending";
               payment.Timestamp := now;
               payment.PaymentHash :=
                 hex.EncodeToString (lnrpc_msg.RHash invoice) |}
     end,
     node_bridge zlb
       (fst (AddInvoice (lndClient zlb) ctx
               {| lnrpc_msg.Value := int64 amount;
                  lnrpc_msg.Memo := memo |})),
     [CallAddInvoice
        {| lnrpc_msg.Value := int64 amount; lnrpc_msg.Memo := memo |}
        (snd (AddInvoice (lndClient zlb) ctx
                {| lnrpc_msg.Value := int64 amount;
                   lnrpc_msg.Memo := memo |}))]).
Proof.
  unfold CreateInvoice, qbind, lnd_AddInvoice.
  destruct (AddInvoice (lndClient zlb) ctx
              {| lnrpc_msg.Value := int64 amount; lnrpc_msg.Memo := memo |})
    as [l1 [invoice | e]]; reflexivity.
Qed.

(** X7: [CreateInvoice] asks the node once, for an invoice whose value
    is the amount converted to [int64]: the amount itself below 2^63,
    the amount minus 2^64 (a negative value) from 2^63 on.  Reading the
    value back as [uint64], as [PayInvoice] does, gives the amount
    again, and the payment returned carries the amount as requested,
    the status pending and an empty [ZionTxHash]. *)
Theorem CreateInvoice_amount now ctx amount memo
    (zlb : ZionLightningBridge L T) :
  is_uint64 amount ->
  (exists resp,
      qcalls (CreateInvoice now ctx amount memo zlb)
      = [CallAddInvoice
           {| lnrpc_msg.Value := int64 amount; lnrpc_msg.Memo := memo |}
           resp])
  /\ uint64 (int64 amount) = amount
  /\ (amount < 2 ^ 63 -> int64 amount = amount)
  /\ (2 ^ 63 <= amount -> int64 amount = amount - 2 ^ 64 /\ int64 amount < 0)
  /\ (forall p,
        qresult (CreateInvoice now ctx amount memo zlb) = Ok p ->
        payment.Amount p = amount
        /\ payment.Status p = "pending"
        /\ payment.ZionTxHash p = ""
        /\ payment.Timestamp p = now).
Proof.
  intros Ha. rewrite CreateInvoice_eq. unfold qcalls, qresult. cbn.
  split; [eexists; reflexivity |].
  split; [now apply uint64_int64 |].
  split; [intros Hlt; apply int64_small; unfold is_uint64 in Ha; lia |].
  split.
  - intros Hge. unfold is_uint64 in Ha.
    rewrite int64_large by lia. split; lia.
  - intros p.
    destruct (snd (AddInvoice (lndClient zlb) ctx
                     {| lnrpc_msg.Value := int64 amount;
                        lnrpc_msg.Memo := memo |})) as [invoice | e];
      [| discriminate].
    intros [= <-]. now repeat split.
Qed.

(** X8: the payment hash [CreateInvoice] returns is the hash of the
    node written with two hexadecimal digits per byte: its length is
    twice the length of the hash, and two invoices with the same payment
    hash string have the same hash. *)
Theorem CreateInvoice_payment_hash
    now1 ctx1 amount1 memo1 (zlb1 : ZionLightningBridge L T) l1 invoice1 p1
    now2 ctx2 amount2 memo2 (zlb2 : ZionLightningBridge L T) l2 invoice2 p2 :
  AddInvoice (lndClient zlb1) ctx1
    {| lnrpc_msg.Value := int64 amount1; lnrpc_msg.Memo := memo1 |}
  = (l1, Ok invoice1) ->
  AddInvoice (lndClient zlb2) ctx2
    {| lnrpc_msg.Value := int64 amount2; lnrpc_msg.Memo := memo2 |}
  = (l2, Ok invoice2) ->
  qresult (CreateInvoice now1 ctx1 amount1 memo1 zlb1) = Ok p1 ->
  qresult (CreateInvoice now2 ctx2 amount2 memo2 zlb2) = Ok p2 ->
  String.length (payment.PaymentHash p1)
  = (2 * List.length (lnrpc_msg.RHash invoice1))%nat
  /\ payment.Invoice p1 = lnrpc_msg.PaymentRequest invoice1
  /\ (payment.PaymentHash p1 = payment.PaymentHash p2 ->
      lnrpc_msg.RHash invoice1 = lnrpc_msg.RHash invoice2).
Proof.
  intros Hadd1 Hadd2. rewrite !CreateInvoice_eq. unfold qresult. cbn.
  rewrite Hadd1, Hadd2. cbn. intros [= <-] [= <-]. cbn.
  split; [apply hex_length | split; [reflexivity | apply hex_injective]].
Qed.

End InvoiceFacts.

(** An amount of 2^63 is sent to the node as -2^63. *)
Lemma CreateInvoice_amount_witness :
  (exists resp,
      qcalls (CreateInvoice 1700000000 Background (2 ^ 63) "coffee"
                (info_bridge (example_node (Err "unused"))))
      = [CallAddInvoice
           {| lnrpc_msg.Value := - 2 ^ 63; lnrpc_msg.Memo := "coffee" |}
           resp])
  /\ uint64 (int64 (2 ^ 63)) = 2 ^ 63
  /\ (2 ^ 63 < 2 ^ 63 -> int64 (2 ^ 63) = 2 ^ 63)
  /\ (2 ^ 63 <= 2 ^ 63 ->
      int64 (2 ^ 63) = 2 ^ 63 - 2 ^ 64 /\ int64 (2 ^ 63) < 0)
  /\ (forall p,
        qresult (CreateInvoice 1700000000 Background (2 ^ 63) "coffee"
                   (info_bridge (example_node (Err "unused")))) = Ok p ->
        payment.Amount p = 2 ^ 63
        /\ payment.Status p = "pending"
        /\ payment.ZionTxHash p = ""
        /\ payment.Timestamp p = 1700000000).
Proof.
  apply (CreateInvoice_amount (L:=InfoNode) (T:=ZionRPCClient)
           1700000000 Background (2 ^ 63) "coffee"
           (info_bridge (example_node (Err "unused")))).
  unfold is_uint64. lia.
Defined.

Lemma CreateInvoice_payment_hash_witness :
  String.length "01ab" = (2 * List.length [Byte.x01; Byte.xab])%nat
  /\ "lnbc10u1invoice" = "lnbc10u1invoice"
  /\ ("01ab" = "01ab" -> [Byte.x01; Byte.xab] = [Byte.x01; Byte.xab]).
Proof.
  apply (CreateInvoice_payment_hash (L:=InfoNode) (T:=ZionRPCClient)
           1700000000 Background 1000 "coffee"
           (info_bridge (example_node (Err "unused")))
           (example_node (Err "unused"))
           {| lnrpc_msg.RHash := [Byte.x01; Byte.xab];
              lnrpc_msg.PaymentRequest := "lnbc10u1invoice" |}
           {| payment.Invoice := "lnbc10u1invoice";
              payment.Amount := 1000;
              payment.ZionTxHash := "";
              payment.Status := "pending";
              payment.Timestamp := 1700000000;
              payment.PaymentHash := "01ab" |}
           1700000001 Background 2000 "tea"
           (info_bridge (example_node (Err "unused")))
           (example_node (Err "unused"))
           {| lnrpc_msg.RHash := [Byte.x01; Byte.xab];
              lnrpc_msg.PaymentRequest := "lnbc10u1invoice" |}
           {| payment.Invoice := "lnbc10u1invoice";
              payment.Amount := 2000;
              payment.ZionTxHash := "";
              payment.Status := "pending";
              payment.Timestamp := 1700000001;
              payment.PaymentHash := "01ab" |});
    reflexivity.
Defined.

(** * Setting up the bridge *)

Section SetupFacts.

Context {L Mac : Type}.

Variable host : Host L Mac.
Variable cfg : Config.

Ltac setup_cases :=
  unfold NewZionLightningBridge, load_macaroon, load_tls, stat, read_file,
    unmarshal, dial, wbind, wret, wlog;
  repeat (cbn;
          match goal with
          | |- context [NewClientTLSFromFile ?h ?c ?s] =>
              destruct (NewClientTLSFromFile h c s) eqn:?
          | |- context [os_Stat ?h ?n] => destruct (os_Stat h n) eqn:?
          | |- context [ioutil_ReadFile ?h ?n] =>
              destruct (ioutil_ReadFile h n) eqn:?
          | |- context [UnmarshalBinary ?h ?d] =>
              destruct (UnmarshalBinary h d) eqn:?
          | |- context [grpc_Dial ?h ?t ?o] =>
              destruct (grpc_Dial h t o) eqn:?
          end);
  cbn.


(** X10: whenever the node is dialled, it is at the configured host and
    with the transport credentials first: those of the certificate file
    when it loads, TLS that skips the verification of the certificate
    when it does not.  The macaroon credential is added exactly when
    [os.Stat] finds the macaroon file, which was then read and parsed;
    when [os.Stat] fails, whatever the reason, the file is not read and
    the node is dialled without a macaroon. *)
Theorem NewZionLightningBridge_dial_options target opts err :
  In (SetupDial Mac target opts err) (snd (NewZionLightningBridge host cfg)) ->
  target = LNDHost cfg
  /\ exists rest,
       opts
       = WithTransportCredentials
           (match NewClientTLSFromFile host (LNDTLSCert cfg) "" with
            | None => credentials.ClientTLSFromFile (LNDTLSCert cfg) ""
            | Some _ => credentials.NewTLS true
            end) :: rest
       /\ match os_Stat host (LNDMacaroon cfg) with
          | Some _ =>
              rest = []
              /\ existsb is_read_file (snd (NewZionLightningBridge host cfg))
                 = false
          | None =>
              exists macaroonBytes mac,
                ioutil_ReadFile host (LNDMacaroon cfg) = Ok macaroonBytes
                /\ UnmarshalBinary host macaroonBytes = Ok mac
                /\ rest = [WithPerRPCCredentials (NewMacaroonCredential mac)]
          end.
Proof.
  setup_cases; intros Hin;
    repeat (destruct Hin as [Hin | Hin]; [try discriminate |]);
    try contradiction;
    injection Hin as <- <- <-;
    (split; [reflexivity |]); eexists; (split; [reflexivity |]);
    first [ now split | do 2 eexists; repeat split; eassumption ].
Qed.

End SetupFacts.


Lemma NewZionLightningBridge_dial_options_witness :
  "localhost:10009" = LNDHost default_config
  /\ exists rest,
       [WithTransportCredentials (credentials.NewTLS true)]
       = WithTransportCredentials
           (match NewClientTLSFromFile bare_host
                    (LNDTLSCert default_config) "" with
            | None =>
                credentials.ClientTLSFromFile (LNDTLSCert default_config) ""
            | Some _ => credentials.NewTLS true
            end) :: rest
       /\ match os_Stat bare_host (LNDMacaroon default_config) with
          | Some _ =>
              rest = []
              /\ existsb is_read_file
                   (snd (NewZionLightningBridge bare_host default_config))
                 = false
          | None =>
              exists macaroonBytes mac,
                ioutil_ReadFile bare_host (LNDMacaroon default_config)
                = Ok macaroonBytes
                /\ UnmarshalBinary bare_host macaroonBytes = Ok mac
                /\ rest = [WithPerRPCCredentials (NewMacaroonCredential mac)]
          end.
Proof.
  apply (NewZionLightningBridge_dial_options bare_host default_config
           "localhost:10009"
           [WithTransportCredentials (credentials.NewTLS true)] None).
  cbn. tauto.
Defined.

(** A macaroon file that does not parse stops the setup before any dial. *)
Example NewZionLightningBridge_broken_macaroon :
  NewZionLightningBridge broken_macaroon_host default_config
  = (Err "cannot unmarshal macaroon: unsupported macaroon version",
     [SetupTLSFromFile _ "/lnd-certs/tls.cert" None;
      SetupStat _ "/lnd-certs/admin.macaroon" None;
      SetupReadFile _ "/lnd-certs/admin.macaroon" (Ok [Byte.x00]);
      SetupUnmarshal _ [Byte.x00] (Some "unsupported macaroon version")]).
Proof. reflexivity. Qed.

(** * The answers of the node and invoice routes *)

Section RouteFacts.

Context {L T : Type} `{LightningNodeClient L}.

Variable zlb : ZionLightningBridge L T.

(** X11: the channels route answers 200 with an object whose one field
    [channels] is [null] for a node without channels and otherwise the
    array of the channels in the order of the node; when [ListChannels]
    fails it answers 500 with the one field [error] holding the error
    of the node as the encoder writes it: bytes that are not UTF-8
    replaced by U+FFFD, and a text that is valid UTF-8 as it is. *)
Theorem handleGetChannels_json :
  qresult (handleGetChannels zlb)
  = match snd (ListChannels (lndClient zlb) Background) with
    | Ok resp =>
        {| reply.code := 200;
           reply.body :=
             json.Object
               [("channels",
                 match lnrpc_msg.Channels resp with
                 | [] => json.Null
                 | chs =>
                     json.Array
                       (map (fun ch => marshal_Channel (channel_of ch)) chs)
                 end)] |}
    | Err e =>
        {| reply.code := 500;
           reply.body :=
             json.Object [("error", json.Str (encoding_json.string e))] |}
    end
  /\ (forall e,
        snd (ListChannels (lndClient zlb) Background) = Err e ->
        utf8.ValidString e = true ->
        qresult (handleGetChannels zlb)
        = {| reply.code := 500;
             reply.body := json.Object [("error", json.Str e)] |}).
Proof.
  assert (Heq :
    qresult (handleGetChannels zlb)
    = match snd (ListChannels (lndClient zlb) Background) with
      | Ok resp =>
          {| reply.code := 200;
             reply.body :=
               json.Object
                 [("channels",
                   match lnrpc_msg.Channels resp with
                   | [] => json.Null
                   | chs =>
                       json.Array
                         (map (fun ch => marshal_Channel (channel_of ch)) chs)
                   end)] |}
      | Err e =>
          {| reply.code := 500;
             reply.body :=
               json.Object [("error", json.Str (encoding_json.string e))] |}
      end).
  { unfold handleGetChannels, qbind at 1.
    destruct (ListChannels (lndClient zlb) Background) as [l1 [resp | e]]
      eqn:Hlist.
    - rewrite (GetChannels_ok Background zlb l1 resp Hlist). cbn.
      unfold channels_slice.
      destruct (lnrpc_msg.Channels resp); cbn; [reflexivity |].
      now rewrite map_map.
    - now rewrite (GetChannels_err Background zlb l1 e Hlist). }
  split; [exact Heq |].
  intros e Herr Hvalid. rewrite Heq, Herr.
  now rewrite (encoding_json_string_valid e Hvalid).
Qed.

Lemma handleGetNodeInfo_eq :
  handleGetNodeInfo zlb
  = (match qresult (GetNodeInfo Background zlb) with
     | Err err =>
         {| reply.code := http.StatusInternalServerError;
            reply.body := error_body err |}
     | Ok nodeInfo =>
         {| reply.code := http.StatusOK;
            reply.body := marshal_NodeInfo nodeInfo |}
     end,
     qbridge (GetNodeInfo Background zlb),
     qcalls (GetNodeInfo Background zlb)).
Proof.
  unfold handleGetNodeInfo, qbind, qresult, qbridge, qcalls.
  destruct (GetNodeInfo Background zlb) as [[[nodeInfo | e] zlb1] cs]; cbn;
    now rewrite app_nil_r.
Qed.

(** X12: in the answer of the node information route the field
    [channels] of a node without channels depends on how that came
    about: it is [null] when [ListChannels] answered with no channel,
    and the empty array when [ListChannels] failed.  In both cases the
    status is 200, the capacity 0, and [num_channels] is the count that
    [GetInfo] gave. *)
Theorem handleGetNodeInfo_empty_channels l1 info :
  GetInfo (lndClient zlb) Background = (l1, Ok info) ->
  reply.code (qresult (handleGetNodeInfo zlb)) = 200
  /\ json_field "num_channels" (reply.body (qresult (handleGetNodeInfo zlb)))
     = Some (json.Number (lnrpc_msg.NumActiveChannels info))
  /\ (forall resp,
        snd (ListChannels l1 Background) = Ok resp ->
        lnrpc_msg.Channels resp = [] ->
        json_field "channels" (reply.body (qresult (handleGetNodeInfo zlb)))
        = Some json.Null
        /\ json_field "capacity"
             (reply.body (qresult (handleGetNodeInfo zlb)))
           = Some (json.Number 0))
  /\ (forall e,
        snd (ListChannels l1 Background) = Err e ->
        json_field "channels" (reply.body (qresult (handleGetNodeInfo zlb)))
        = Some (json.Array [])
        /\ json_field "capacity"
             (reply.body (qresult (handleGetNodeInfo zlb)))
           = Some (json.Number 0)).
Proof.
  intros Hinfo. rewrite handleGetNodeInfo_eq.
  destruct (ListChannels l1 Background) as [l2 [resp | e]] eqn:Hlist.
  - rewrite (GetNodeInfo_ok Background zlb l1 info l2 resp Hinfo Hlist).
    cbn. split; [reflexivity | split; [reflexivity | split]].
    + intros resp' [= <-] Hnone. rewrite Hnone. split; reflexivity.
    + intros e. discriminate.
  - rewrite (GetNodeInfo_channels_err Background zlb l1 info l2 e Hinfo Hlist).
    cbn. split; [reflexivity | split; [reflexivity | split]].
    + intros resp. discriminate.
    + intros e' _. split; reflexivity.
Qed.

(** X13: the invoice route checks nothing but the binding: a request
    that does not bind is answered 400 without any call to the node;
    every request that binds, whatever its amount and memo, leads to
    exactly one [AddInvoice] call with the amount converted to [int64],
    answered 200 when the node made the invoice and 500 when it did
    not.  Both failures carry the one field [error] with the text of
    the Go error as the encoder writes it: bytes that are not UTF-8
    replaced by U+FFFD, and a text that is valid UTF-8 as it is. *)
Theorem handleCreateInvoice_statuses now c :
  match ShouldBindInvoice c with
  | Err e =>
      handleCreateInvoice now c zlb
      = ({| reply.code := 400;
            reply.body :=
              json.Object [("error", json.Str (encoding_json.string e))] |},
         zlb, [])
      /\ (utf8.ValidString e = true ->
          qresult (handleCreateInvoice now c zlb)
          = {| reply.code := 400;
               reply.body := json.Object [("error", json.Str e)] |})
  | Ok req =>
      exists resp,
        qcalls (handleCreateInvoice now c zlb)
        = [CallAddInvoice
             {| lnrpc_msg.Value := int64 (invoicereq.Amount req);
                lnrpc_msg.Memo := invoicereq.Memo req |} resp]
        /\ (reply.code (qresult (handleCreateInvoice now c zlb)) = 200
            <-> exists invoice, resp = Ok invoice)
        /\ (forall e,
              resp = Err e ->
              qresult (handleCreateInvoice now c zlb)
              = {| reply.code := 500;
                   reply.body :=
                     json.Object
                       [("error", json.Str (encoding_json.string e))] |}
              /\ (utf8.ValidString e = true ->
                  qresult (handleCreateInvoice now c zlb)
                  = {| reply.code := 500;
                       reply.body := json.Object [("error", json.Str e)] |}))
  end.
Proof.
  unfold handleCreateInvoice.
  destruct (ShouldBindInvoice c) as [req | e].
  2: { split; [reflexivity |]. intros Hvalid. cbn.
       unfold error_body, json.of_string.
       now rewrite (encoding_json_string_valid e Hvalid). }
  unfold qbind. rewrite CreateInvoice_eq.
  destruct (AddInvoice (lndClient zlb) Background
              {| lnrpc_msg.Value := int64 (invoicereq.Amount req);
                 lnrpc_msg.Memo := invoicereq.Memo req |})
    as [l1 [invoice | e]]; cbn; eexists; (split; [reflexivity |]); split.
  - split; [intros _; now exists invoice | reflexivity].
  - discriminate.
  - split; [discriminate | intros [invoice Hx]; discriminate].
  - intros e' [= <-]. split; [reflexivity |].
    intros Hvalid. unfold error_body, json.of_string.
    now rewrite (encoding_json_string_valid e Hvalid).
Qed.

End RouteFacts.

(** An error of the node with a byte that is not UTF-8, on the channels
    route: the caller reads U+FFFD in its place. *)
Example handleGetChannels_invalid_utf8 :
  qresult (handleGetChannels
             (info_bridge
                (example_node
                   (Err ("bad " ++ String (ascii_of_N 255) " byte")))))
  = {| reply.code := 500;
       reply.body :=
         json.Object
           [("error", json.Str ("bad " ++ utf8.replacement " byte"))] |}.
Proof. reflexivity. Qed.

Lemma handleGetNodeInfo_empty_channels_witness :
  json_field "channels"
    (reply.body
       (qresult (handleGetNodeInfo
                   (info_bridge
                      (example_node (Ok {| lnrpc_msg.Channels := [] |}))))))
  = Some json.Null
  /\ json_field "channels"
       (reply.body
          (qresult (handleGetNodeInfo
                      (info_bridge
                         (example_node (Err "rpc error: code = Unknown"))))))
     = Some (json.Array []).
Proof.
  split.
  - refine (proj1 (proj1 (proj2 (proj2
              (handleGetNodeInfo_empty_channels
                 (L:=InfoNode) (T:=ZionRPCClient)
                 (info_bridge
                    (example_node (Ok {| lnrpc_msg.Channels := [] |})))
                 (example_node (Ok {| lnrpc_msg.Channels := [] |}))
                 example_info eq_refl)))
              {| lnrpc_msg.Channels := [] |} eq_refl eq_refl)).
  - refine (proj1 (proj2 (proj2 (proj2
              (handleGetNodeInfo_empty_channels
                 (L:=InfoNode) (T:=ZionRPCClient)
                 (info_bridge
                    (example_node (Err "rpc error: code = Unknown")))
                 (example_node (Err "rpc error: code = Unknown"))
                 example_info eq_refl)))
              "rpc error: code = Unknown" eq_refl)).
Defined.

(** * The CORS middleware *)

Section MiddlewareFacts.

Context {L T : Type} `{LightningClient L} `{LedgerClient T}.

(** X14: every response that passes the middleware carries the three
    CORS headers, with any origin allowed.  A request with the method
    OPTIONS is answered 204 without a body and the handler of the route
    is not run: on the pay route nothing is decoded, paid or
    transferred.  For any other method the handler runs once and its
    status, body and events are passed on as they are. *)
Theorem cors_middleware_preflight
    method (next : M (L:=L) (T:=T) gin.Response)
    (zlb : ZionLightningBridge L T) :
  cors.headers (result_of (cors_middleware method next zlb)) = cors_headers
  /\ (method = "OPTIONS" ->
      cors_middleware method next zlb
      = ({| cors.headers := cors_headers; cors.status := 204;
            cors.body := None |}, zlb, []))
  /\ (method <> "OPTIONS" ->
      cors_middleware method next zlb
      = ({| cors.headers := cors_headers;
            cors.status := gin.code (result_of (next zlb));
            cors.body := Some (gin.obj (result_of (next zlb))) |},
         bridge_of (next zlb), events_of (next zlb))).
Proof.
  unfold cors_middleware.
  destruct (String.eqb_spec method "OPTIONS") as [Hm | Hm].
  - split; [reflexivity | split; [intros _; reflexivity | contradiction]].
  - unfold bind, ret, result_of, bridge_of, events_of.
    destruct (next zlb) as [[resp zlb1] evs]. cbn.
    rewrite app_nil_r.
    split; [reflexivity | split; [contradiction | intros _; reflexivity]].
Qed.

End MiddlewareFacts.

(** A preflight request on the pay route pays nothing. *)
Lemma cors_middleware_preflight_witness :
  cors_middleware "OPTIONS"
    (handlePayInvoice
       (bound {| Invoice := "lnbc10u1invoice"; ZionAddress := "Z1account";
                 Amount := 1000 |}))
    (source_bridge (paying_node 1000))
  = ({| cors.headers := cors_headers; cors.status := 204;
        cors.body := None |},
     source_bridge (paying_node 1000), []).
Proof.
  apply (proj1 (proj2 (cors_middleware_preflight
                         (L:=StubNode) (T:=ZionRPCClient) "OPTIONS"
                         (handlePayInvoice
                            (bound {| Invoice := "lnbc10u1invoice";
                                      ZionAddress := "Z1account";
                                      Amount := 1000 |}))
                         (source_bridge (paying_node 1000))))).
  reflexivity.
Defined.

(** * More on the pay operation *)

Lemma prefix_app (p s : string) : prefix p (p ++ s) = true.
Proof.
  induction p as [| a p IH]; cbn.
  - destruct s; reflexivity.
  - destruct (ascii_dec a a) as [_ | Hne]; [exact IH | congruence].
Qed.

Lemma prefixes_hit (p s : string) :
  In p PayInvoice_error_prefixes ->
  existsb (fun q => prefix q (p ++ s)) PayInvoice_error_prefixes = true.
Proof.
  intros Hin. apply existsb_exists. exists p. split; [exact Hin |].
  apply prefix_app.
Qed.

Lemma In_transfer_ledger_leg from to amount' err'
    zionAddress amount lines err payment :
  In (EvSendTransaction from to amount' err')
    (ledger_leg_events zionAddress amount lines err payment) ->
  from = zionAddress /\ to = pool /\ amount' = amount /\ err' = err.
Proof.
  unfold ledger_leg_events. intros Hin.
  apply in_app_or in Hin as [Hin | Hin].
  - apply in_map_iff in Hin as (line & Hline & _). discriminate.
  - apply in_app_or in Hin as [Hin | Hin].
    + destruct Hin as [Heq | []]. injection Heq as <- <- <- <-. easy.
    + destruct err; cbn in Hin; intuition discriminate.
Qed.

Lemma In_balance_ledger_leg address balance e
    zionAddress amount lines err payment :
  In (EvGetBalance address balance e)
    (ledger_leg_events zionAddress amount lines err payment) -> False.
Proof.
  unfold ledger_leg_events. intros Hin.
  apply in_app_or in Hin as [Hin | Hin].
  - apply in_map_iff in Hin as (line & Hline & _). discriminate.
  - apply in_app_or in Hin as [Hin | Hin].
    + destruct Hin as [Heq | []]. discriminate.
    + destruct err; cbn in Hin; intuition discriminate.
Qed.

Section PayFacts.

Context {L T : Type} `{LightningClient L} `{LedgerClient T}.

Variable ctx : context_Context.
Variables invoice zionAddress : string.
Variable zlb : ZionLightningBridge L T.

Ltac pay_runs Hrun :=
  destruct Hrun as
    [ l1' e Hdec'
    | l1' payReq' t1' balance' e Hdec' Hbal'
    | l1' payReq' t1' balance' Hdec' Hbal' Hlt
    | l1' payReq' t1' balance' l2 e Hdec' Hbal' Hge Hsend
    | l1' payReq' t1' balance' l2 payment Hdec' Hbal' Hge Hsend Hpe
    | l1' payReq' t1' balance' l2 payment t2 lines err
        Hdec' Hbal' Hge Hsend Hpe Htx ].

(** X15: an invoice that decodes to an amount of 0 (an invoice without
    an amount) is never rejected for insufficient balance, whatever
    balance the ledger reports: the Lightning payment request is sent,
    and any ledger transfer that follows is a transfer of 0. *)
Theorem PayInvoice_zero_amount l1 payReq t1 balance :
  DecodePayReq (lndClient zlb) ctx (decodeReq invoice) = (l1, Ok payReq) ->
  lnrpc.NumSatoshis payReq = 0 ->
  GetBalance (zionRPC zlb) zionAddress = (t1, (balance, None)) ->
  is_uint64 balance ->
  existsb is_lightning_send
    (events_of (PayInvoice ctx invoice zionAddress zlb)) = true
  /\ is_insufficient_rejection
       (result_of (PayInvoice ctx invoice zionAddress zlb)) = false
  /\ forall from to amount err,
       In (EvSendTransaction from to amount err)
         (events_of (PayInvoice ctx invoice zionAddress zlb)) ->
       amount = 0.
Proof.
  intros Hdec Hzero Hbal Hb.
  pose proof (PayInvoice_runs ctx invoice zionAddress zlb) as Hrun.
  pay_runs Hrun; rewrite Hdec in Hdec'; try discriminate;
    injection Hdec' as <- <-; rewrite Hbal in Hbal'; try discriminate;
    injection Hbal' as <- <-.
  - exfalso. rewrite Hzero in Hlt. unfold is_uint64 in Hb.
    change (uint64 0) with 0 in Hlt. lia.
  - repeat split. intros from to amount err Hin.
    cbn in Hin. intuition discriminate.
  - repeat split. intros from to amount err Hin.
    cbn in Hin. intuition discriminate.
  - repeat split. intros from to amount err' Hin.
    apply in_app_or in Hin as [Hin | Hin].
    + cbn in Hin. intuition discriminate.
    + apply In_transfer_ledger_leg in Hin as (_ & _ & -> & _).
      now rewrite Hzero.
Qed.

(** X16: [PayInvoice] touches no account but the one it is given: the
    one invoice it decodes is the invoice given, the balance it asks
    for is that of [zionAddress], and the transfer it requests, at most
    one, goes from [zionAddress] to [lightning_pool_address] and is for
    the decoded amount. *)
Theorem PayInvoice_accounts :
  (forall req resp,
      In (EvDecodePayReq req resp)
        (events_of (PayInvoice ctx invoice zionAddress zlb)) ->
      lnrpc.PayReq_ req = invoice)
  /\ (forall address balance err,
        In (EvGetBalance address balance err)
          (events_of (PayInvoice ctx invoice zionAddress zlb)) ->
        address = zionAddress)
  /\ (forall from to amount err,
        In (EvSendTransaction from to amount err)
          (events_of (PayInvoice ctx invoice zionAddress zlb)) ->
        from = zionAddress
        /\ to = "lightning_pool_address"
        /\ decoded_amount
             (events_of (PayInvoice ctx invoice zionAddress zlb))
           = Some amount)
  /\ (count is_ledger_transfer
        (events_of (PayInvoice ctx invoice zionAddress zlb)) <= 1)%nat.
Proof.
  pose proof (PayInvoice_runs ctx invoice zionAddress zlb) as Hrun.
  pay_runs Hrun.
  1-5: (split; [| split; [| split; [| cbn; lia]]];
        [ intros req resp Hin | intros address balance err Hin
        | intros from to amount err Hin ];
        cbn in Hin; intuition (try discriminate);
        match goal with
        | Heq : @eq event _ _ |- _ => now injection Heq; intros; subst
        end).
  split; [| split; [| split]].
  - intros req resp Hin. apply in_app_or in Hin as [Hin | Hin].
    + cbn in Hin. intuition (try discriminate).
      match goal with
      | Heq : @eq event _ _ |- _ => now injection Heq; intros; subst
      end.
    + unfold ledger_leg_events in Hin.
      apply in_app_or in Hin as [Hin | Hin].
      * apply in_map_iff in Hin as (line & Hline & _). discriminate.
      * destruct err; cbn in Hin; intuition discriminate.
  - intros address balance err' Hin. apply in_app_or in Hin as [Hin | Hin].
    + cbn in Hin. intuition (try discriminate).
      match goal with
      | Heq : @eq event _ _ |- _ => now injection Heq; intros; subst
      end.
    + now apply In_balance_ledger_leg in Hin.
  - intros from to amount err' Hin. apply in_app_or in Hin as [Hin | Hin].
    + cbn in Hin. intuition discriminate.
    + apply In_transfer_ledger_leg in Hin as (-> & -> & -> & _).
      now repeat split.
  - rewrite count_app, ledger_leg_one_transfer. cbn. lia.
Qed.

(** X17: an error of [PayInvoice] always starts with one of five fixed
    prefixes, one for each way in which the call can fail. *)
Theorem PayInvoice_error_prefix msg :
  result_of (PayInvoice ctx invoice zionAddress zlb) = Some msg ->
  existsb (fun p => prefix p msg) PayInvoice_error_prefixes = true.
Proof.
  pose proof (PayInvoice_runs ctx invoice zionAddress zlb) as Hrun.
  pay_runs Hrun; intros Hmsg; try discriminate; injection Hmsg as <-;
    first [ refine (prefixes_hit "cannot decode invoice: " _ _)
          | refine (prefixes_hit "cannot get ZION balance: " _ _)
          | refine (prefixes_hit "insufficient ZION balance: " _ _)
          | refine (prefixes_hit "lightning payment failed: " _ _)
          | refine (prefixes_hit "payment error: " _ _) ];
    cbn; tauto.
Qed.

End PayFacts.

(** An invoice without an amount on an account whose balance is 0. *)
Lemma PayInvoice_zero_amount_witness :
  existsb is_lightning_send
    (events_of (PayInvoice Background "lnbc1invoice" "Z1account"
                  (stub_bridge (paying_node 0)
                     {| balance_answer := (0, None);
                        transfer_answer := None |}))) = true
  /\ is_insufficient_rejection
       (result_of (PayInvoice Background "lnbc1invoice" "Z1account"
                     (stub_bridge (paying_node 0)
                        {| balance_answer := (0, None);
                           transfer_answer := None |}))) = false
  /\ forall from to amount err,
       In (EvSendTransaction from to amount err)
         (events_of (PayInvoice Background "lnbc1invoice" "Z1account"
                       (stub_bridge (paying_node 0)
                          {| balance_answer := (0, None);
                             transfer_answer := None |}))) ->
       amount = 0.
Proof.
  apply (PayInvoice_zero_amount (L:=StubNode) (T:=StubLedger)
           Background "lnbc1invoice" "Z1account"
           (stub_bridge (paying_node 0)
              {| balance_answer := (0, None); transfer_answer := None |})
           (paying_node 0) {| lnrpc.NumSatoshis := 0 |}
           {| balance_answer := (0, None); transfer_answer := None |} 0).
  - reflexivity.
  - reflexivity.
  - reflexivity.
  - unfold is_uint64. lia.
Defined.

Lemma PayInvoice_accounts_witness :
  "Z1account" = "Z1account"
  /\ "lightning_pool_address" = "lightning_pool_address"
  /\ decoded_amount
       (events_of (PayInvoice Background "lnbc10u1invoice" "Z1account"
                     (source_bridge (paying_node 1000)))) = Some 1000.
Proof.
  apply (proj1 (proj2 (proj2 (PayInvoice_accounts
                                (L:=StubNode) (T:=ZionRPCClient)
                                Background "lnbc10u1invoice" "Z1account"
                                (source_bridge (paying_node 1000)))))
           "Z1account" "lightning_pool_address" 1000 None).
  cbn. tauto.
Defined.

Lemma PayInvoice_error_prefix_witness :
  existsb
    (fun p =>
       prefix p
         "lightning payment failed: rpc error: code = Unavailable desc = connection refused")
    PayInvoice_error_prefixes = true.
Proof.
  apply (PayInvoice_error_prefix (L:=StubNode) (T:=ZionRPCClient)
           Background "lnbc10u1invoice" "Z1account"
           (source_bridge unreachable_node)).
  reflexivity.
Defined.

(** * The macaroon credential *)

Section CredentialFacts.

Context {L Mac : Type}.

Variable host : Host L Mac.

(** X18: the request metadata of a macaroon credential has the single
    key [macaroon]; its value has two hexadecimal digits for each byte
    of the serialized macaroon and determines those bytes.  When the
    macaroon cannot be serialized there is no metadata, only the error
    of the serialization. *)
Theorem GetRequestMetadata_macaroon (mc : MacaroonCredential Mac) :
  match MarshalBinary host (Macaroon Mac mc) with
  | Err e => GetRequestMetadata host mc = Err e
  | Ok macBytes =>
      exists value,
        GetRequestMetadata host mc = Ok [("macaroon", value)]
        /\ String.length value = (2 * List.length macBytes)%nat
        /\ unhex.DecodeString value = Some macBytes
        /\ forall mc' macBytes',
             MarshalBinary host (Macaroon Mac mc') = Ok macBytes' ->
             GetRequestMetadata host mc' = GetRequestMetadata host mc ->
             macBytes' = macBytes
  end.
Proof.
  unfold GetRequestMetadata.
  destruct (MarshalBinary host (Macaroon Mac mc)) as [macBytes | e];
    [| reflexivity].
  exists (hex.EncodeToString macBytes).
  split; [reflexivity | split; [apply hex_length | split]].
  - apply unhex_hex.
  - intros mc' macBytes' Hm. rewrite Hm. intros [= Heq].
    now apply hex_injective.
Qed.

End CredentialFacts.
